(** * Gerador de piadas: the history log and the Gemini client

    A shallow embedding of [models.py] (the [Interacao] record, the class
    counter that numbers it, the bounded [HistoricoInteracoes]) and of
    [gemini_service.py] (construction of [GeminiService], the request that
    [gerar_conteudo] builds, and the way it turns the outcome of the HTTP
    round trip into a text or an exception).

    Python values are embedded as [pyval]; a [dict] with string keys is a
    [gmap string pyval]; a Python [int] is a [Z]; a [float] is an IEEE
    double ([PrimFloat.float]).  Methods that read or update [self] are
    written in a small state monad over the object they belong to, so that
    "the call leaves the log unchanged" is a statement about the final
    state.  Fallible code returns a [resultado], whose error side is the
    Python exception that was raised (class and message). *)

From Corelib Require Import PrimFloat.
From stdpp Require Import base option list sorting gmap strings pretty.

Local Open Scope string_scope.
Local Open Scope list_scope.
Local Open Scope Z_scope.

(** ** Python values *)

#[local] Set Warnings "-register-all".

Inductive pyval : Type :=
  | PNone
  | PBool (b : bool)
  | PInt (z : Z)
  | PFloat (f : float)
  | PStr (s : string)
  | PList (l : list pyval)
  | PDict (d : gmap string pyval).

(** Exceptions: the class that [except] clauses dispatch on, and [str(e)]. *)
Inductive classe_exc : Type :=
  | Exception_
  | ValueError_
  | KeyError_
  | IndexError_
  | TypeError_
  | UnboundLocalError_
  | Timeout_
  | ConnectTimeout_
  | ReadTimeout_
  | ConnectionError_
  | HTTPError_
  | RequestException_
  | JSONDecodeError_.

Record excecao : Type := Raise { exc_classe : classe_exc; exc_msg : string }.

Inductive resultado (A : Type) : Type :=
  | Ok (a : A)
  | Erro (e : excecao).
Arguments Ok {A} a.
Arguments Erro {A} e.

Definition res_bind {A B} (r : resultado A) (k : A → resultado B) : resultado B :=
  match r with
  | Ok a => k a
  | Erro e => Erro e
  end.

Notation "'tente' x := r 'em' k" := (res_bind r (λ x, k))
  (at level 10, x name, r at level 100, k at level 200, only parsing).

(** ** [datetime] and [strftime]

    [Interacao] stores [datetime.now()]; [para_dict] renders it with the
    format [%d/%m/%Y %H:%M:%S]: day, month, hour, minute and second on two
    digits, the year in decimal as the C library prints it, without padding
    (four digits from the year 1000 on). *)

Record datetime : Type := DateTime {
  dt_year : Z; dt_month : Z; dt_day : Z;
  dt_hour : Z; dt_minute : Z; dt_second : Z; dt_microsecond : Z
}.

Definition zero_pad (largura : nat) (n : Z) : string :=
  let s := pretty n in
  String.concat "" (replicate (largura - String.length s)%nat "0") +:+ s.

Definition strftime_dmY_HMS (t : datetime) : string :=
  zero_pad 2 (dt_day t) +:+ "/" +:+ zero_pad 2 (dt_month t) +:+ "/" +:+
  pretty (dt_year t) +:+ " " +:+
  zero_pad 2 (dt_hour t) +:+ ":" +:+ zero_pad 2 (dt_minute t) +:+ ":" +:+
  zero_pad 2 (dt_second t).

(** ** [class Interacao] *)

Record Interacao : Type := MkInteracao {
  id : Z;
  usuario_input : string;
  ia_resposta : string;
  timestamp : datetime;
  categoria : string
}.

(** Python's [x or y] on an [Optional[str]]: [None] and the empty string are
    falsy. *)
Definition str_or (x : option string) (y : string) : string :=
  match x with
  | None => y
  | Some s => if String.eqb s "" then y else s
  end.

(** [Interacao.__init__].  The class attribute [Interacao._contador] is
    threaded explicitly: the constructor takes its current value and returns
    the new one next to the object.  [agora] is what [datetime.now()] reads. *)
Definition Interacao_init (_contador : Z) (agora : datetime)
    (usuario_input ia_resposta : string) (categoria : option string)
    : Interacao * Z :=
  let _contador := _contador + 1 in
  ({| id := _contador;
      usuario_input := usuario_input;
      ia_resposta := ia_resposta;
      timestamp := agora;
      categoria := str_or categoria "geral" |},
   _contador).

Definition para_dict (self : Interacao) : gmap string pyval :=
  <["id" := PInt (id self)]>
  (<["usuario_input" := PStr (usuario_input self)]>
  (<["ia_resposta" := PStr (ia_resposta self)]>
  (<["timestamp" := PStr (strftime_dmY_HMS (timestamp self))]>
  (<["categoria" := PStr (categoria self)]> ∅)))).

(** ** [class HistoricoInteracoes] *)

Record HistoricoInteracoes : Type := MkHistorico {
  interacoes : list Interacao;
  limite : Z
}.

(** Methods run in a state monad over the object. *)
Definition Metodo (A : Type) : Type :=
  HistoricoInteracoes → A * HistoricoInteracoes.

Definition HistoricoInteracoes_init (limite : Z) : HistoricoInteracoes :=
  {| interacoes := []; limite := limite |}.

(** The default of the [limite] argument. *)
Definition limite_padrao : Z := 50.

(** [list.pop(0)] on a list known to be non-empty drops its head; on the
    empty list Python raises, which [adicionar] never reaches because it
    pops right after an append. *)
Definition pop0 {A} (l : list A) : list A := drop 1 l.

Definition adicionar (interacao : Interacao) : Metodo unit := λ self,
  let l := interacoes self ++ [interacao] in
  let l := if bool_decide (Z.of_nat (length l) > limite self) then pop0 l else l in
  (tt, {| interacoes := l; limite := limite self |}).

Definition obter_todas : Metodo (list (gmap string pyval)) := λ self,
  (para_dict <$> interacoes self, self).

(** The list comprehension of [obter_por_categoria], as the loop it is. *)
Fixpoint compreensao_categoria (categoria_ : string) (l : list Interacao)
    : list (gmap string pyval) :=
  match l with
  | [] => []
  | interacao :: l =>
      if String.eqb (categoria interacao) categoria_
      then para_dict interacao :: compreensao_categoria categoria_ l
      else compreensao_categoria categoria_ l
  end.

Definition obter_por_categoria (categoria_ : string)
    : Metodo (list (gmap string pyval)) := λ self,
  (compreensao_categoria categoria_ (interacoes self), self).

Definition limpar : Metodo unit := λ self,
  (tt, {| interacoes := []; limite := limite self |}).

Definition total : Metodo Z := λ self,
  (Z.of_nat (length (interacoes self)), self).

(** Running a method for its final state, and a sequence of appends. *)
Definition estado_apos {A} (m : Metodo A) (self : HistoricoInteracoes)
    : HistoricoInteracoes := (m self).2.

Definition valor_de {A} (m : Metodo A) (self : HistoricoInteracoes) : A :=
  (m self).1.

Definition adicionar_todas (xs : list Interacao) (self : HistoricoInteracoes)
    : HistoricoInteracoes :=
  foldl (λ h x, estado_apos (adicionar x) h) self xs.

(** ** The [requests] library, as far as [gemini_service.py] uses it *)

Record Request : Type := MkRequest {
  req_url : string;
  req_params : gmap string string;
  req_json : pyval;
  req_headers : gmap string string;
  req_timeout : Z
}.

(** What comes back from [requests.post]: the status line, the final URL and
    what [response.json()] gives (the decoded body, or the exception that
    decoding raises). *)
Record Response : Type := MkResponse {
  status_code : Z;
  reason : string;
  url : string;
  json : resultado pyval
}.

(** [isinstance(e, c)] for the classes at hand.  In [requests],
    [ConnectTimeout] derives from both [ConnectionError] and [Timeout],
    [ReadTimeout] from [Timeout]; all of them, [HTTPError] and the JSON
    decoding error derive from [RequestException]. *)
Definition isinstance (e : excecao) (c : classe_exc) : bool :=
  match c, exc_classe e with
  | Exception_, _ => true
  | ValueError_, (ValueError_ | JSONDecodeError_) => true
  | KeyError_, KeyError_ => true
  | IndexError_, IndexError_ => true
  | TypeError_, TypeError_ => true
  | UnboundLocalError_, UnboundLocalError_ => true
  | Timeout_, (Timeout_ | ConnectTimeout_ | ReadTimeout_) => true
  | ConnectTimeout_, ConnectTimeout_ => true
  | ReadTimeout_, ReadTimeout_ => true
  | ConnectionError_, (ConnectionError_ | ConnectTimeout_) => true
  | HTTPError_, HTTPError_ => true
  | JSONDecodeError_, JSONDecodeError_ => true
  | RequestException_,
    (RequestException_ | Timeout_ | ConnectTimeout_ | ReadTimeout_
     | ConnectionError_ | HTTPError_ | JSONDecodeError_) => true
  | _, _ => false
  end.

(** [Response.raise_for_status]: an [HTTPError] for a status from 400 to
    599, nothing otherwise. *)
Definition raise_for_status (self : Response) : resultado unit :=
  if bool_decide (400 ≤ status_code self < 500) then
    Erro (Raise HTTPError_
      (pretty (status_code self) +:+ " Client Error: " +:+ reason self +:+
       " for url: " +:+ url self))
  else if bool_decide (500 ≤ status_code self < 600) then
    Erro (Raise HTTPError_
      (pretty (status_code self) +:+ " Server Error: " +:+ reason self +:+
       " for url: " +:+ url self))
  else Ok tt.

(** ** Subscripting *)

Definition nao_subscritavel (tipo : string) : excecao :=
  Raise TypeError_ ("'" +:+ tipo +:+ "' object is not subscriptable").

(** [v[k]] for a string literal [k]. *)
Definition getitem_str (v : pyval) (k : string) : resultado pyval :=
  match v with
  | PDict d =>
      match d !! k with
      | Some x => Ok x
      | None => Erro (Raise KeyError_ ("'" +:+ k +:+ "'"))
      end
  | PList _ => Erro (Raise TypeError_ "list indices must be integers or slices, not str")
  | PStr _ => Erro (Raise TypeError_ "string indices must be integers, not 'str'")
  | PNone => Erro (nao_subscritavel "NoneType")
  | PBool _ => Erro (nao_subscritavel "bool")
  | PInt _ => Erro (nao_subscritavel "int")
  | PFloat _ => Erro (nao_subscritavel "float")
  end.

(** [v[0]].  A decoded JSON object has string keys only, so [0] is never a
    key of it.  The one-character string that [s[0]] gives is only ever
    subscripted by a key afterwards, which raises whatever the character. *)
Definition getitem_0 (v : pyval) : resultado pyval :=
  match v with
  | PList (x :: _) => Ok x
  | PList [] => Erro (Raise IndexError_ "list index out of range")
  | PDict _ => Erro (Raise KeyError_ "0")
  | PStr (String c _) => Ok (PStr (String c ""))
  | PStr "" => Erro (Raise IndexError_ "string index out of range")
  | PNone => Erro (nao_subscritavel "NoneType")
  | PBool _ => Erro (nao_subscritavel "bool")
  | PInt _ => Erro (nao_subscritavel "int")
  | PFloat _ => Erro (nao_subscritavel "float")
  end.

(** ** [class GeminiService] *)

Record GeminiService : Type := MkGeminiService {
  api_key : string;
  base_url : string;
  model : string;
  timeout : Z
}.

Definition sua_api_key_aqui : string := "sua_api_key_aqui".

Definition msg_api_key_nao_configurada : string :=
  "❌ API key do Gemini não configurada! " +:+
  "Copie .env.example para .env e adicione sua API key.".

(** Python's [not x] on what [os.getenv] returns. *)
Definition not_optstr (x : option string) : bool :=
  match x with
  | None => true
  | Some s => String.eqb s ""
  end.

Definition optstr_eqb (x : option string) (s : string) : bool :=
  match x with
  | None => false
  | Some k => String.eqb k s
  end.

(** [GeminiService.__init__]; [environ] is the process environment once
    [load_dotenv()] has run. *)
Definition GeminiService_init (environ : gmap string string)
    : resultado GeminiService :=
  let api_key := environ !! "GEMINI_API_KEY" in
  if not_optstr api_key || optstr_eqb api_key sua_api_key_aqui then
    Erro (Raise ValueError_ msg_api_key_nao_configurada)
  else
    Ok {| api_key := default "" api_key;
          base_url := "https://generativelanguage.googleapis.com/v1beta/models";
          model := "gemini-2.5-flash";
          timeout := 30 |}.

(** The module-level start of [main.py]: the service, then the history. *)
Record Aplicacao : Type := MkAplicacao {
  gemini : GeminiService;
  historico : HistoricoInteracoes
}.

Definition main_iniciar (environ : gmap string string) : resultado Aplicacao :=
  tente gemini := GeminiService_init environ em
  Ok {| gemini := gemini; historico := HistoricoInteracoes_init 50 |}.

(** *** [gerar_conteudo] *)

#[local] Set Warnings "-inexact-float".

(** Python's truth value of an [Optional[int]]. *)
Definition truthy_optint (x : option Z) : bool :=
  match x with
  | None => false
  | Some z => negb (z =? 0)
  end.

Definition generationConfig (temperatura : float) (max_tokens : option Z)
    : gmap string pyval :=
  let config : gmap string pyval :=
    <["temperature" := PFloat temperatura]>
    (<["topK" := PInt 40]>
    (<["topP" := PFloat 0.95%float]> ∅)) in
  if truthy_optint max_tokens
  then <["maxOutputTokens" := PInt (default 0 max_tokens)]> config
  else config.

Definition payload (prompt : string) (temperatura : float)
    (max_tokens : option Z) : pyval :=
  PDict
    (<["contents" :=
        PList [PDict (<["parts" := PList [PDict (<["text" := PStr prompt]> ∅)]]> ∅)]]>
    (<["generationConfig" := PDict (generationConfig temperatura max_tokens)]> ∅)).

(** The request that [gerar_conteudo] hands to [requests.post]. *)
Definition requisicao (self : GeminiService) (prompt : string)
    (temperatura : float) (max_tokens : option Z) : Request :=
  {| req_url := base_url self +:+ "/" +:+ model self +:+ ":generateContent";
     req_params := <["key" := api_key self]> ∅;
     req_json := payload prompt temperatura max_tokens;
     req_headers := <["Content-Type" := "application/json"]> ∅;
     req_timeout := timeout self |}.

(** [data["candidates"][0]["content"]["parts"][0]["text"]] *)
Definition extrair_texto (data : pyval) : resultado pyval :=
  tente candidates := getitem_str data "candidates" em
  tente candidate := getitem_0 candidates em
  tente content := getitem_str candidate "content" em
  tente parts := getitem_str content "parts" em
  tente part := getitem_0 parts em
  getitem_str part "text".

Definition msg_timeout : string :=
  "⏱️ A API demorou muito para responder (timeout). " +:+ "Tente novamente!".
Definition msg_conexao : string :=
  "🌐 Erro de conexão com a API. " +:+ "Verifique sua internet!".
Definition msg_limite_requisicoes : string :=
  "🚫 Você excedeu o limite de requisições da API. " +:+
  "Aguarde alguns minutos!".
Definition msg_api_key_invalida : string :=
  "🔑 API key inválida! " +:+ "Verifique se copiou corretamente.".
Definition msg_erro_http (status : Z) (str_e : string) : string :=
  "❌ Erro HTTP " +:+ pretty status +:+ ": " +:+ str_e.
Definition msg_formato_inesperado : string :=
  "🤔 Resposta da API em formato inesperado. " +:+
  "Pode ser que o modelo esteja indisponível.".
Definition msg_erro_inesperado (str_e : string) : string :=
  "💥 Erro inesperado: " +:+ str_e.

(** The [except] clauses of [gerar_conteudo], tried in order.  [response] is
    the local variable of that name: unbound when [requests.post] itself
    raised. *)
Definition tratar (response : option Response) (e : excecao) : excecao :=
  if isinstance e Timeout_ then Raise Exception_ msg_timeout
  else if isinstance e ConnectionError_ then Raise Exception_ msg_conexao
  else if isinstance e HTTPError_ then
    match response with
    | None =>
        Raise UnboundLocalError_
          "cannot access local variable 'response' where it is not associated with a value"
    | Some response =>
        if status_code response =? 429 then Raise Exception_ msg_limite_requisicoes
        else if status_code response =? 401 then Raise Exception_ msg_api_key_invalida
        else Raise Exception_ (msg_erro_http (status_code response) (exc_msg e))
    end
  else if isinstance e KeyError_ then Raise Exception_ msg_formato_inesperado
  else Raise Exception_ (msg_erro_inesperado (exc_msg e)).

(** [post] stands for [requests.post] and the upstream behind it. *)
Definition gerar_conteudo (self : GeminiService)
    (post : Request → resultado Response)
    (prompt : string) (temperatura : float) (max_tokens : option Z)
    : resultado pyval :=
  match post (requisicao self prompt temperatura max_tokens) with
  | Erro e => Erro (tratar None e)
  | Ok response =>
      let corpo :=
        tente _ok := raise_for_status response em
        tente data := json response em
        extrair_texto data in
      match corpo with
      | Ok texto_gerado => Ok texto_gerado
      | Erro e => Erro (tratar (Some response) e)
      end
  end.

(** The response text as the specification words it: the text of the first
    part of the first candidate, in a body of the shape
    [{candidates: [{content: {parts: [{text}]}}]}].  This one follows the
    specification, not the code; [extrair_texto] above is the code. *)
Definition spec_primeiro_texto (corpo : pyval) : option pyval :=
  match corpo with
  | PDict d =>
      match d !! "candidates" with
      | Some (PList (PDict candidate :: _)) =>
          match candidate !! "content" with
          | Some (PDict content) =>
              match content !! "parts" with
              | Some (PList (PDict part :: _)) => part !! "text"
              | _ => None
              end
          | _ => None
          end
      | _ => None
      end
  | _ => None
  end.

(** ** The process: the class counter and the history together

    The object-level operations of a running process, in the order they
    happen.  [OpNova] is a call [Interacao(...)], followed by
    [historico.adicionar] of the new object when [guardar] is set (as
    [processar_input] does); the other operations are the methods of the
    history.  [executar] returns the final state and the objects created,
    oldest first. *)

Record Processo : Type := MkProcesso {
  contador : Z;
  proc_historico : HistoricoInteracoes
}.

Inductive Operacao : Type :=
  | OpNova (agora : datetime) (usuario_input ia_resposta : string)
      (categoria : option string) (guardar : bool)
  | OpLimpar
  | OpObterTodas
  | OpObterPorCategoria (categoria : string)
  | OpTotal.

Definition passo (p : Processo) (op : Operacao) : Processo * list Interacao :=
  match op with
  | OpNova agora u r c guardar =>
      let '(x, n) := Interacao_init (contador p) agora u r c in
      let h := proc_historico p in
      ({| contador := n;
          proc_historico := if guardar then estado_apos (adicionar x) h else h |},
       [x])
  | OpLimpar =>
      ({| contador := contador p;
          proc_historico := estado_apos limpar (proc_historico p) |}, [])
  | OpObterTodas =>
      ({| contador := contador p;
          proc_historico := estado_apos obter_todas (proc_historico p) |}, [])
  | OpObterPorCategoria c =>
      ({| contador := contador p;
          proc_historico := estado_apos (obter_por_categoria c) (proc_historico p) |}, [])
  | OpTotal =>
      ({| contador := contador p;
          proc_historico := estado_apos total (proc_historico p) |}, [])
  end.

Fixpoint executar (ops : list Operacao) (p : Processo)
    : Processo * list Interacao :=
  match ops with
  | [] => (p, [])
  | op :: ops =>
      let '(p1, novas) := passo p op in
      let '(p2, resto) := executar ops p1 in
      (p2, novas ++ resto)
  end.

(** The process as [main.py] starts it: counter at zero, empty history with
    the default cap. *)
Definition processo_inicial : Processo :=
  {| contador := 0; proc_historico := HistoricoInteracoes_init limite_padrao |}.

(** ** Sample data *)

Definition agora_exemplo : datetime := DateTime 2024 3 7 9 5 0 0.

(** [n] interactions built by successive constructor calls. *)
Definition interacoes_exemplo (n : nat) : list Interacao :=
  (executar
     (replicate n (OpNova agora_exemplo "gatos" "Uma piada." (Some "piada") false))
     processo_inicial).2.

Definition servico_exemplo : GeminiService :=
  {| api_key := "chave";
     base_url := "https://generativelanguage.googleapis.com/v1beta/models";
     model := "gemini-2.5-flash";
     timeout := 30 |}.

Definition corpo_cats : pyval :=
  PDict (<["candidates" :=
    PList [PDict (<["content" :=
      PDict (<["parts" :=
        PList [PDict (<["text" := PStr "Cats rule."]> ∅)]]> ∅)]> ∅)]]> ∅).

(** An upstream stub answering every request with the given status and
    decoded body. *)
Definition upstream_stub (status : Z) (corpo : pyval)
    : Request → resultado Response := λ req,
  Ok {| status_code := status; reason := "";
        url := req_url req; json := Ok corpo |}.

(** ** [GeminiService.gerar_com_contexto] *)

(** The loop that formats the conversation, one message at a time:
    [msg["role"]] is read before [msg["text"]], and the first subscript that
    fails ends the loop.  It runs before the [try]. *)
Fixpoint formatar_mensagens (mensagens : list pyval) : resultado (list pyval) :=
  match mensagens with
  | [] => Ok []
  | msg :: mensagens =>
      tente role := getitem_str msg "role" em
      tente text := getitem_str msg "text" em
      tente conteudo_formatado := formatar_mensagens mensagens em
      Ok (PDict (<["role" := role]>
                (<["parts" := PList [PDict (<["text" := text]> ∅)]]> ∅))
          :: conteudo_formatado)
  end.

Definition payload_contexto (conteudo_formatado : list pyval)
    (temperatura : float) : pyval :=
  PDict
    (<["contents" := PList conteudo_formatado]>
    (<["generationConfig" :=
        PDict (<["temperature" := PFloat temperatura]>
              (<["topK" := PInt 40]>
              (<["topP" := PFloat 0.95%float]> ∅)))]> ∅)).

Definition requisicao_contexto (self : GeminiService)
    (conteudo_formatado : list pyval) (temperatura : float) : Request :=
  {| req_url := base_url self +:+ "/" +:+ model self +:+ ":generateContent";
     req_params := <["key" := api_key self]> ∅;
     req_json := payload_contexto conteudo_formatado temperatura;
     req_headers := <["Content-Type" := "application/json"]> ∅;
     req_timeout := timeout self |}.

Definition msg_erro_contexto (str_e : string) : string :=
  "Erro ao gerar com contexto: " +:+ str_e.

(** An exception of the formatting loop leaves the method as it is; one
    raised inside the [try] is wrapped by its single [except] clause. *)
Definition gerar_com_contexto (self : GeminiService)
    (post : Request → resultado Response)
    (mensagens : list pyval) (temperatura : float) : resultado pyval :=
  match formatar_mensagens mensagens with
  | Erro e => Erro e
  | Ok conteudo_formatado =>
      let corpo :=
        tente response := post (requisicao_contexto self conteudo_formatado temperatura) em
        tente _ok := raise_for_status response em
        tente data := json response em
        extrair_texto data in
      match corpo with
      | Ok texto => Ok texto
      | Erro e => Erro (Raise Exception_ (msg_erro_contexto (exc_msg e)))
      end
  end.

(** The messages [gerar_conteudo] can fail with. *)
Definition mensagem_gerar_conteudo (m : string) : Prop :=
  m = msg_timeout ∨ m = msg_conexao ∨ m = msg_limite_requisicoes ∨
  m = msg_api_key_invalida ∨ (∃ status str_e, m = msg_erro_http status str_e) ∨
  m = msg_formato_inesperado ∨ (∃ str_e, m = msg_erro_inesperado str_e).

(** ** The handlers of [main.py]

    A handler is a function of the process state.  What it hands to the
    template engine or returns as JSON is kept as a value: the template name
    with its context (without the [request] entry), or the returned dict. *)

Inductive RespostaHTTP : Type :=
  | TemplateResponse (nome : string) (contexto : gmap string pyval)
  | JSONResponse (corpo : gmap string pyval).

Definition nl : string := String (Ascii.ascii_of_nat 10) "".
Definition aspas : string := String (Ascii.ascii_of_nat 34) "".

(** The f-string prompt of [processar_input]. *)
Definition prompt_piada (user_input : string) : string :=
  nl +:+
  "Você agora é um gerador profissional de PIADAS." +:+ nl +:+
  nl +:+
  "Sua função:" +:+ nl +:+
  "- Criar **sempre** uma piada curta, criativa e engraçada." +:+ nl +:+
  "- Não faça piadas ofensivas ou sem sentido." +:+ nl +:+
  "- O tema da piada deve ser baseado no pedido do usuário: " +:+
    aspas +:+ user_input +:+ aspas +:+ nl +:+
  "- Não explique a piada, não fale nada além dela." +:+ nl +:+
  nl +:+
  "Agora gere UMA piada:" +:+ nl.

Definition msg_poucos_caracteres : string :=
  "❌ Escreva pelo menos 2 caracteres!".

Definition contexto_erro (erro user_input : string) : gmap string pyval :=
  <["erro" := PStr erro]> (<["user_input" := PStr user_input]> ∅).

Section processar.
(** Python's [str.strip] and [len] on a [str] (which counts code points,
    where [string] here holds bytes) are taken as given. *)
Variable py_strip : string → string.
Variable py_len : string → Z.

(** [processar_input].  [Interacao] is typed as the source annotates it, with
    a [str] response: the result is [None] where the upstream text is not a
    string, a case this model does not follow further. *)
Definition processar_input (gemini : GeminiService)
    (post : Request → resultado Response) (agora : datetime)
    (user_input : string) (temperatura : float) (p : Processo)
    : option (RespostaHTTP * Processo) :=
  if String.eqb user_input "" || bool_decide (py_len (py_strip user_input) < 2)
  then
    Some (TemplateResponse "resultado.html"
            (contexto_erro msg_poucos_caracteres user_input), p)
  else
    match gerar_conteudo gemini post (prompt_piada user_input) temperatura None with
    | Erro e =>
        Some (TemplateResponse "resultado.html"
                (contexto_erro ("❌ Erro: " +:+ exc_msg e) user_input), p)
    | Ok (PStr resposta_ia) =>
        let '(interacao, n) :=
          Interacao_init (contador p) agora user_input resposta_ia (Some "piada") in
        let h := estado_apos (adicionar interacao) (proc_historico p) in
        Some (TemplateResponse "resultado.html"
                (<["user_input" := PStr user_input]>
                (<["resultado" := PStr resposta_ia]>
                (<["temperatura" := PFloat temperatura]>
                (<["total_interacoes" := PInt (valor_de total h)]> ∅)))),
              {| contador := n; proc_historico := h |})
    | Ok _ => None
    end.
End processar.

Definition ver_historico (p : Processo) : RespostaHTTP * Processo :=
  let h := proc_historico p in
  (TemplateResponse "historico.html"
     (<["interacoes" := PList (PDict <$> valor_de obter_todas h)]>
     (<["total" := PInt (valor_de total (estado_apos obter_todas h))]> ∅)),
   {| contador := contador p;
      proc_historico := estado_apos total (estado_apos obter_todas h) |}).

Definition limpar_historico (p : Processo) : RespostaHTTP * Processo :=
  (JSONResponse
     (<["mensagem" := PStr "Histórico limpo!"]> (<["total" := PInt 0]> ∅)),
   {| contador := contador p;
      proc_historico := estado_apos limpar (proc_historico p) |}).

Definition health_check (p : Processo) : RespostaHTTP * Processo :=
  (JSONResponse
     (<["status" := PStr "ok"]>
     (<["mensagem" := PStr "Aplicação rodando!"]>
     (<["versao" := PStr "1.0.0"]>
     (<["total_interacoes" := PInt (valor_de total (proc_historico p))]> ∅)))),
   {| contador := contador p;
      proc_historico := estado_apos total (proc_historico p) |}).

(** Stand-ins for [str.strip] and [len] that agree with Python on the
    ASCII, whitespace-free sample inputs below. *)
Definition strip_exemplo (s : string) : string := s.
Definition len_exemplo (s : string) : Z := Z.of_nat (String.length s).

(** [pagina_inicial] *)
Definition pagina_inicial (p : Processo) : RespostaHTTP * Processo :=
  (TemplateResponse "index.html"
     (<["titulo" := PStr "Gerador de Piadas "]>
     (<["descricao" := PStr "Peça qualquer tema e receba uma piada na hora!"]> ∅)),
   p).

(** ** The application at work

    The requests that the routes of [main.py] answer, and the application
    serving them one after the other on the state of the process.  A
    [PostProcessar] carries what the outside world contributes while it is
    served: the behaviour of the upstream and the time on the clock. *)

Inductive Pedido : Type :=
  | GetRaiz
  | PostProcessar (post : Request → resultado Response) (agora : datetime)
      (user_input : string) (temperatura : float)
  | GetHistorico
  | PostLimparHistorico
  | GetHealth.

Section aplicacao.
Variable py_strip : string → string.
Variable py_len : string → Z.
Variable servico : GeminiService.

Definition atender (p : Processo) (pedido : Pedido)
    : option (RespostaHTTP * Processo) :=
  match pedido with
  | GetRaiz => Some (pagina_inicial p)
  | PostProcessar post agora user_input temperatura =>
      processar_input py_strip py_len servico post agora user_input temperatura p
  | GetHistorico => Some (ver_historico p)
  | PostLimparHistorico => Some (limpar_historico p)
  | GetHealth => Some (health_check p)
  end.

Fixpoint atender_todos (pedidos : list Pedido) (p : Processo)
    : option (list RespostaHTTP * Processo) :=
  match pedidos with
  | [] => Some ([], p)
  | pedido :: pedidos =>
      match atender p pedido with
      | None => None
      | Some (resposta, p1) =>
          match atender_todos pedidos p1 with
          | None => None
          | Some (respostas, p2) => Some (resposta :: respostas, p2)
          end
      end
  end.
End aplicacao.

(** What holds of the process between two requests. *)
Definition invariante_aplicacao (p : Processo) : Prop :=
  0 ≤ contador p ∧
  limite (proc_historico p) = 50 ∧
  (length (interacoes (proc_historico p)) ≤ 50)%nat ∧
  Forall (λ x, categoria x = "piada" ∧ 0 < id x ≤ contador p)
    (interacoes (proc_historico p)) ∧
  StronglySorted (λ x y, id x < id y) (interacoes (proc_historico p)).

(** * Properties *)

(** ** The bounded history log *)

Section historico.
Implicit Types (h : HistoricoInteracoes) (x : Interacao) (xs : list Interacao).

Lemma adicionar_limite x h : limite (estado_apos (adicionar x) h) = limite h.
Proof. reflexivity. Qed.

Lemma adicionar_todas_limite xs h : limite (adicionar_todas xs h) = limite h.
Proof.
  revert h. induction xs as [|x xs IH]; intros h; [done|].
  change (adicionar_todas (x :: xs) h)
    with (adicionar_todas xs (estado_apos (adicionar x) h)).
  by rewrite IH.
Qed.

Lemma adicionar_todas_snoc xs x h :
  adicionar_todas (xs ++ [x]) h = estado_apos (adicionar x) (adicionar_todas xs h).
Proof. unfold adicionar_todas. by rewrite foldl_app. Qed.

(** One append, spelled out on the list. *)
Lemma adicionar_interacoes x h :
  interacoes (estado_apos (adicionar x) h) =
    if bool_decide (Z.of_nat (length (interacoes h)) + 1 > limite h)
    then drop 1 (interacoes h ++ [x])
    else interacoes h ++ [x].
Proof.
  unfold estado_apos, adicionar, pop0; cbn.
  rewrite length_app; cbn.
  replace (Z.of_nat (length (interacoes h) + 1)) with
    (Z.of_nat (length (interacoes h)) + 1) by lia.
  by destruct (bool_decide _).
Qed.

(** After any run of appends on a fresh log whose cap is not negative,
    the log holds the last [limite] appended interactions. *)
Lemma adicionar_todas_interacoes (C : Z) xs :
  0 ≤ C →
  interacoes (adicionar_todas xs (HistoricoInteracoes_init C)) =
    drop (length xs - Z.to_nat C) xs.
Proof.
  intros HC. induction xs as [|x xs IH] using rev_ind; [done|].
  rewrite adicionar_todas_snoc, adicionar_interacoes, adicionar_todas_limite, IH.
  cbn [limite HistoricoInteracoes_init].
  rewrite length_drop, length_app; cbn [length].
  case_bool_decide as Hgt.
  - rewrite <- (drop_app_le xs [x]) by lia.
    rewrite drop_drop. f_equal. lia.
  - replace (length xs - Z.to_nat C)%nat with 0%nat by lia.
    replace (length xs + 1 - Z.to_nat C)%nat with 0%nat by lia.
    done.
Qed.

(** A log with a negative cap never keeps anything. *)
Lemma adicionar_todas_limite_negativo (C : Z) xs :
  C < 0 → interacoes (adicionar_todas xs (HistoricoInteracoes_init C)) = [].
Proof.
  intros HC. induction xs as [|x xs IH] using rev_ind; [done|].
  rewrite adicionar_todas_snoc, adicionar_interacoes, adicionar_todas_limite, IH.
  cbn. case_bool_decide; [done|lia].
Qed.

(** The view of an interaction determines its id. *)
Lemma para_dict_id x y : para_dict x = para_dict y → id x = id y.
Proof.
  intros H. apply (f_equal (λ d : gmap string pyval, d !! "id")) in H.
  unfold para_dict in H. rewrite !lookup_insert_eq in H. congruence.
Qed.

Lemma compreensao_categoria_filter c xs :
  compreensao_categoria c xs =
    para_dict <$> filter (λ x, categoria x = c) xs.
Proof.
  induction xs as [|x xs IH]; [done|]. cbn [compreensao_categoria].
  rewrite filter_cons. destruct (String.eqb_spec (categoria x) c) as [E|E].
  - rewrite decide_True by done. cbn. by rewrite IH.
  - by rewrite decide_False.
Qed.
End historico.

(** C1. On a fresh log with cap [C >= 0], after the appends [xs] the log has
    [min (length xs) C] entries, and they are the last that many of [xs], in
    the order appended; [obter_todas] shows their views in that order.  In
    particular, with the default cap of 50 and 51 appended interactions of
    distinct ids, the view of the first is not in [obter_todas], the view of
    the 51st is, and [total] is 50. *)
Theorem adicionar_fifo_limite (C : Z) (xs : list Interacao) :
  0 ≤ C →
  let h := adicionar_todas xs (HistoricoInteracoes_init C) in
  let n := Z.of_nat (length xs) in
  let ultimas := drop (length xs - Z.to_nat (Z.min n C)) xs in
  valor_de total h = Z.min n C ∧
  interacoes h = ultimas ∧
  valor_de obter_todas h = para_dict <$> ultimas ∧
  (C = limite_padrao → length xs = 51%nat → NoDup (id <$> xs) →
   ∀ primeira ultima, head xs = Some primeira → last xs = Some ultima →
     (para_dict primeira ∉ valor_de obter_todas h) ∧
     para_dict ultima ∈ valor_de obter_todas h ∧
     valor_de total h = 50).
Proof.
  intros HC h n ultimas.
  assert (Hi : interacoes h = ultimas).
  { subst h ultimas n. rewrite adicionar_todas_interacoes by done.
    f_equal. lia. }
  assert (Ht : valor_de total h = Z.min n C).
  { unfold valor_de, total; cbn. rewrite Hi. subst ultimas n.
    rewrite length_drop. lia. }
  assert (Ho : valor_de obter_todas h = para_dict <$> ultimas).
  { unfold valor_de, obter_todas; cbn. by rewrite Hi. }
  split; [done|]. split; [done|]. split; [done|].
  intros -> Hlen Hnd primeira ultima Hprim Hult.
  assert (Hult1 : ultimas = drop 1 xs).
  { subst ultimas n. rewrite Hlen. unfold limite_padrao. reflexivity. }
  rewrite Ho, Hult1, Ht. subst n. rewrite Hlen.
  destruct xs as [|x0 [|x1 resto]]; [done..|].
  cbn in Hprim. injection Hprim as ->.
  cbn [drop]. split; [|split].
  - (* the first of the 51 has been evicted *)
    intros (y & Hy & Hin)%list_elem_of_fmap.
    rewrite fmap_cons in Hnd. apply NoDup_cons in Hnd as [Hnotin _].
    apply Hnotin, list_elem_of_fmap. exists y. split; [|done].
    by apply para_dict_id.
  - (* the 51st is there *)
    apply list_elem_of_fmap_2.
    change (last (primeira :: x1 :: resto)) with (last (x1 :: resto)) in Hult.
    apply last_Some in Hult as [l' ->].
    apply elem_of_app. right. by apply list_elem_of_singleton.
  - unfold limite_padrao. lia.
Qed.

Lemma adicionar_fifo_limite_witness :
  let xs := interacoes_exemplo 51 in
  let h := adicionar_todas xs (HistoricoInteracoes_init limite_padrao) in
  0 ≤ limite_padrao ∧ length xs = 51%nat ∧ NoDup (id <$> xs) ∧
  valor_de total h = 50 ∧
  interacoes h = drop 1 xs ∧
  (para_dict (MkInteracao 1 "gatos" "Uma piada." agora_exemplo "piada")
     ∉ valor_de obter_todas h) ∧
  para_dict (MkInteracao 51 "gatos" "Uma piada." agora_exemplo "piada")
     ∈ valor_de obter_todas h.
Proof.
  intros xs h.
  assert (Hnd : NoDup (id <$> xs)).
  { apply (bool_decide_unpack _). vm_compute. exact I. }
  assert (HC : 0 ≤ limite_padrao) by (unfold limite_padrao; lia).
  destruct (adicionar_fifo_limite limite_padrao xs HC) as (Ht & Hi & _ & Hc).
  destruct (Hc eq_refl eq_refl Hnd
              (MkInteracao 1 "gatos" "Uma piada." agora_exemplo "piada")
              (MkInteracao 51 "gatos" "Uma piada." agora_exemplo "piada")
              eq_refl eq_refl) as (H1 & H51 & H50).
  split; [exact HC|]. split; [reflexivity|]. split; [exact Hnd|].
  split; [exact H50|]. split; [exact Hi|]. split; [exact H1|exact H51].
Defined.

(** ** Reads and [limpar] *)

(** C7. [obter_por_categoria c] returns the views of exactly those entries
    of the log whose category is [c], in the order of the log, and leaves
    the log as it was. *)
Theorem obter_por_categoria_subsequencia (h : HistoricoInteracoes) (c : string) :
  let escolhidas := filter (λ x, categoria x = c) (interacoes h) in
  valor_de (obter_por_categoria c) h = para_dict <$> escolhidas ∧
  escolhidas `sublist_of` interacoes h ∧
  (∀ x, x ∈ escolhidas ↔ x ∈ interacoes h ∧ categoria x = c) ∧
  estado_apos (obter_por_categoria c) h = h.
Proof.
  intros escolhidas. split; [|split; [|split]].
  - apply compreensao_categoria_filter.
  - apply sublist_filter.
  - intros x. subst escolhidas. rewrite list_elem_of_filter. tauto.
  - reflexivity.
Qed.

(** C8. Whatever the log holds, after [limpar] it holds nothing: [total] is
    0 and [obter_todas] is the empty list; the cap is kept. *)
Theorem limpar_esvazia (h : HistoricoInteracoes) :
  let h' := estado_apos limpar h in
  valor_de total h' = 0 ∧
  valor_de obter_todas h' = [] ∧
  interacoes h' = [] ∧
  limite h' = limite h.
Proof. by repeat split. Qed.

(** ** The class counter *)

Lemma executar_cons op ops p :
  executar (op :: ops) p =
    ((executar ops (passo p op).1).1,
     (passo p op).2 ++ (executar ops (passo p op).1).2).
Proof.
  cbn [executar]. destruct (passo p op) as [p1 novas]. cbn [fst snd].
  by destruct (executar ops p1).
Qed.

(** What one operation does to the counter and to the ids it hands out. *)
Lemma passo_ids p op :
  id <$> (passo p op).2 = seqZ (contador p + 1) (Z.of_nat (length (passo p op).2)) ∧
  contador (passo p op).1 = contador p + Z.of_nat (length (passo p op).2).
Proof.
  destruct op; cbn; split; try done; lia.
Qed.

Lemma executar_ids ops p :
  id <$> (executar ops p).2 =
    seqZ (contador p + 1) (Z.of_nat (length (executar ops p).2)) ∧
  contador (executar ops p).1 =
    contador p + Z.of_nat (length (executar ops p).2).
Proof.
  revert p. induction ops as [|op ops IH]; intros p.
  { cbn. split; [done|lia]. }
  rewrite executar_cons. cbn [fst snd].
  destruct (passo_ids p op) as [Hids Hc].
  destruct (IH (passo p op).1) as [IHids IHc].
  rewrite fmap_app, length_app, Nat2Z.inj_add, seqZ_app by lia.
  split.
  - rewrite Hids, IHids, Hc. do 2 f_equal. lia.
  - rewrite IHc, Hc. lia.
Qed.

(** Appending keeps what was there or adds the new object, nothing else. *)
Lemma adicionar_elem_of x y h :
  y ∈ interacoes (estado_apos (adicionar x) h) → y ∈ interacoes h ∨ y = x.
Proof.
  rewrite adicionar_interacoes. intros Hy.
  assert (y ∈ interacoes h ++ [x]) as Hin.
  { destruct (bool_decide _); [|done]. by eapply subseteq_drop. }
  apply elem_of_app in Hin as [?|?%list_elem_of_singleton]; auto.
Qed.

Lemma passo_historico p op y :
  y ∈ interacoes (proc_historico (passo p op).1) →
  y ∈ interacoes (proc_historico p) ∨ y ∈ (passo p op).2.
Proof.
  destruct op as [agora u r c [|]| | | |]; cbn; try by auto.
  intros [?| ->]%adicionar_elem_of; [by left|].
  right. by apply list_elem_of_singleton.
Qed.

Lemma executar_historico ops p y :
  y ∈ interacoes (proc_historico (executar ops p).1) →
  y ∈ interacoes (proc_historico p) ∨ y ∈ (executar ops p).2.
Proof.
  revert p. induction ops as [|op ops IH]; intros p; [by left|].
  rewrite executar_cons. cbn [fst snd].
  intros [Hy|Hy]%IH; [|right; apply elem_of_app; by right].
  apply passo_historico in Hy as [?|?]; [by left|].
  right. apply elem_of_app. by left.
Qed.

(** Every object created carries the arguments of the constructor call
    that made it. *)
Lemma executar_criadas ops p x :
  x ∈ (executar ops p).2 →
  ∃ agora u r c guardar,
    OpNova agora u r c guardar ∈ ops ∧
    usuario_input x = u ∧ ia_resposta x = r ∧ timestamp x = agora ∧
    categoria x = str_or c "geral".
Proof.
  revert p. induction ops as [|op ops IH]; intros p.
  { by intros ?%elem_of_nil. }
  rewrite executar_cons. cbn [fst snd]. intros [Hx|Hx]%elem_of_app.
  - destruct op as [agora u r c g| | | |]; cbn in Hx;
      try by apply elem_of_nil in Hx.
    apply list_elem_of_singleton in Hx as ->.
    exists agora, u, r, c, g. split; [apply elem_of_cons; by left|done].
  - destruct (IH _ Hx) as (agora & u & r & c & g & Hin & Hrest).
    exists agora, u, r, c, g. split; [apply elem_of_cons; by right|done].
Qed.

Lemma str_or_nao_vazia c : str_or c "geral" ≠ "".
Proof.
  destruct c as [s|]; cbn; [|done].
  destruct (String.eqb_spec s ""); [done|done].
Qed.

(** C9. In any run of the process, from any state: an interaction created
    later has a strictly greater id, so no two interactions created share
    an id, whatever clears and evictions happen in between; whatever the
    history holds at the end was there at the start or is one of the
    objects created; and every object created still carries the input,
    response, timestamp and category its constructor call gave it. *)
Theorem ids_monotonicos_unicos (ops : list Operacao) (p : Processo) :
  let criadas := (executar ops p).2 in
  let final := (executar ops p).1 in
  (∀ i j a b, criadas !! i = Some a → criadas !! j = Some b →
     (i < j)%nat → id a < id b) ∧
  (∀ i j a b, criadas !! i = Some a → criadas !! j = Some b →
     id a = id b → i = j) ∧
  NoDup (id <$> criadas) ∧
  (∀ i a, criadas !! i = Some a → id a = contador p + 1 + Z.of_nat i) ∧
  (∀ x, x ∈ interacoes (proc_historico final) →
     x ∈ interacoes (proc_historico p) ∨ x ∈ criadas) ∧
  (∀ x, x ∈ criadas →
     ∃ agora u r c guardar,
       OpNova agora u r c guardar ∈ ops ∧
       usuario_input x = u ∧ ia_resposta x = r ∧ timestamp x = agora ∧
       categoria x = str_or c "geral").
Proof.
  intros criadas final.
  destruct (executar_ids ops p) as [Hids _]. fold criadas in Hids.
  assert (Hpos : ∀ i a, criadas !! i = Some a → id a = contador p + 1 + Z.of_nat i).
  { intros i a Ha.
    assert ((id <$> criadas) !! i = Some (id a)) as Hi
      by (by rewrite list_lookup_fmap, Ha).
    rewrite Hids in Hi. by apply lookup_seqZ in Hi as [-> _]. }
  split; [|split; [|split; [|split; [|split]]]].
  - intros i j a b Ha Hb Hij. rewrite (Hpos i a Ha), (Hpos j b Hb). lia.
  - intros i j a b Ha Hb Hab.
    rewrite (Hpos i a Ha), (Hpos j b Hb) in Hab. lia.
  - rewrite Hids. apply NoDup_seqZ.
  - exact Hpos.
  - intros x. apply executar_historico.
  - intros x. apply executar_criadas.
Qed.

Lemma ids_monotonicos_unicos_witness :
  let ops := [OpNova agora_exemplo "gatos" "Uma piada." (Some "piada") true;
              OpLimpar;
              OpNova agora_exemplo "caes" "Outra piada." None true] in
  let a := MkInteracao 1 "gatos" "Uma piada." agora_exemplo "piada" in
  let b := MkInteracao 2 "caes" "Outra piada." agora_exemplo "geral" in
  (executar ops processo_inicial).2 = [a; b] ∧
  interacoes (proc_historico (executar ops processo_inicial).1) = [b] ∧
  id a < id b.
Proof.
  intros ops a b.
  destruct (ids_monotonicos_unicos ops processo_inicial) as (Hlt & _).
  split; [reflexivity|]. split; [reflexivity|].
  apply (Hlt 0%nat 1%nat a b eq_refl eq_refl). lia.
Defined.

(** C10. An empty category is replaced by the default just as a missing one
    is: with the same counter, clock and texts the two constructor calls
    give the same object, of category "geral"; no constructor call, and so
    no interaction created in any run, has the empty category. *)
Theorem categoria_vazia_vira_geral (n : Z) (agora : datetime) (u r : string) :
  categoria (Interacao_init n agora u r (Some "")).1 = "geral" ∧
  Interacao_init n agora u r (Some "") = Interacao_init n agora u r None ∧
  (∀ c, categoria (Interacao_init n agora u r c).1 ≠ "") ∧
  (∀ ops p x, x ∈ (executar ops p).2 → categoria x ≠ "").
Proof.
  split; [done|]. split; [done|]. split.
  - intros c. apply str_or_nao_vazia.
  - intros ops p x (? & ? & ? & c & ? & _ & _ & _ & _ & ->)%executar_criadas.
    apply str_or_nao_vazia.
Qed.

Lemma categoria_vazia_vira_geral_witness :
  let ops := [OpNova agora_exemplo "gatos" "Uma piada." (Some "") true] in
  let x := MkInteracao 1 "gatos" "Uma piada." agora_exemplo "geral" in
  (executar ops processo_inicial).2 = [x] ∧ categoria x ≠ "".
Proof.
  intros ops x. split; [reflexivity|].
  destruct (categoria_vazia_vira_geral 0 agora_exemplo "gatos" "Uma piada.")
    as (_ & _ & _ & H).
  apply (H ops processo_inicial x). by apply list_elem_of_singleton.
Defined.

(** ** The Gemini client *)

(** The subscript chain of the code finds a text exactly when the body has
    the shape the specification describes, and then it is that text. *)
Lemma extrair_texto_spec (data t : pyval) :
  extrair_texto data = Ok t ↔ spec_primeiro_texto data = Some t.
Proof.
  unfold extrair_texto, spec_primeiro_texto, res_bind, getitem_str, getitem_0.
  repeat (case_match; simplify_eq/=; try done);
    split; intros; simplify_eq/=; try done; congruence.
Qed.

Lemma raise_for_status_ok (response : Response) :
  ¬ (400 ≤ status_code response < 600) → raise_for_status response = Ok tt.
Proof.
  intros H. unfold raise_for_status.
  rewrite !bool_decide_eq_false_2 by lia. done.
Qed.

Lemma raise_for_status_erro (response : Response) :
  400 ≤ status_code response < 600 →
  ∃ e, raise_for_status response = Erro e ∧ exc_classe e = HTTPError_.
Proof.
  intros H. unfold raise_for_status.
  destruct (decide (status_code response < 500)).
  - rewrite bool_decide_eq_true_2 by lia. eauto.
  - rewrite bool_decide_eq_false_2, bool_decide_eq_true_2 by lia. eauto.
Qed.

(** C2. When the upstream answers with a 2xx status and a body whose first
    candidate's first part has a text, [gerar_conteudo] returns exactly
    that text; in particular, against a stub answering 200 with the body
    [{candidates: [{content: {parts: [{text: Cats rule.}]}}]}], the call
    with prompt [tell me about cats] and temperature 0.9 returns
    [Cats rule.]. *)
Theorem gerar_conteudo_primeiro_texto :
  (∀ self post prompt temperatura max_tokens response data t,
     post (requisicao self prompt temperatura max_tokens) = Ok response →
     200 ≤ status_code response < 300 →
     json response = Ok data →
     spec_primeiro_texto data = Some t →
     gerar_conteudo self post prompt temperatura max_tokens = Ok t) ∧
  (∀ self,
     gerar_conteudo self (upstream_stub 200 corpo_cats)
       "tell me about cats" 0.9%float None = Ok (PStr "Cats rule.")).
Proof.
  assert (∀ self post prompt temperatura max_tokens response data t,
     post (requisicao self prompt temperatura max_tokens) = Ok response →
     200 ≤ status_code response < 300 →
     json response = Ok data →
     spec_primeiro_texto data = Some t →
     gerar_conteudo self post prompt temperatura max_tokens = Ok t) as geral.
  { intros self post prompt temperatura max_tokens response data t
      Hpost Hst Hjson Ht.
    unfold gerar_conteudo. rewrite Hpost.
    rewrite raise_for_status_ok by lia. cbn [res_bind]. rewrite Hjson.
    cbn [res_bind]. apply extrair_texto_spec in Ht. by rewrite Ht. }
  split; [exact geral|].
  intros self.
  apply (geral self _ _ _ _ _ corpo_cats (PStr "Cats rule.") eq_refl);
    [cbn; lia|reflexivity|reflexivity].
Qed.

Lemma gerar_conteudo_primeiro_texto_witness :
  gerar_conteudo servico_exemplo (upstream_stub 200 corpo_cats)
    "tell me about cats" 0.9%float None = Ok (PStr "Cats rule.").
Proof.
  destruct gerar_conteudo_primeiro_texto as [geral _].
  apply (geral servico_exemplo (upstream_stub 200 corpo_cats)
           "tell me about cats" 0.9%float None
           (MkResponse 200 ""
              (req_url (requisicao servico_exemplo "tell me about cats"
                          0.9%float None))
              (Ok corpo_cats))
           corpo_cats (PStr "Cats rule.")).
  - reflexivity.
  - cbn. lia.
  - reflexivity.
  - reflexivity.
Defined.

(** A body that lacks one of the keys on the way to the text is reported as
    a response of unexpected format. *)
Lemma gerar_conteudo_chave_ausente
    self post prompt temperatura max_tokens response data e :
  post (requisicao self prompt temperatura max_tokens) = Ok response →
  ¬ (400 ≤ status_code response < 600) →
  json response = Ok data →
  extrair_texto data = Erro e →
  exc_classe e = KeyError_ →
  gerar_conteudo self post prompt temperatura max_tokens =
    Erro (Raise Exception_ msg_formato_inesperado).
Proof.
  intros Hpost Hst Hjson He Hk.
  unfold gerar_conteudo. rewrite Hpost, raise_for_status_ok by done.
  cbn [res_bind]. rewrite Hjson. cbn [res_bind]. rewrite He.
  unfold tratar, isinstance. by rewrite Hk.
Qed.

(** C3, at the input where the code departs from it.  A 200 answer whose
    [candidates] list is empty is not reported as a response of unexpected
    format: the subscript raises [IndexError], which only the catch-all
    clause handles. *)
Theorem gerar_conteudo_candidates_vazio :
  let corpo := PDict (<["candidates" := PList []]> ∅) in
  spec_primeiro_texto corpo = None ∧
  extrair_texto corpo = Erro (Raise IndexError_ "list index out of range") ∧
  gerar_conteudo servico_exemplo (upstream_stub 200 corpo)
    "tell me about cats" 0.9%float None =
    Erro (Raise Exception_ (msg_erro_inesperado "list index out of range")) ∧
  gerar_conteudo servico_exemplo (upstream_stub 200 corpo)
    "tell me about cats" 0.9%float None ≠
    Erro (Raise Exception_ msg_formato_inesperado) ∧
  gerar_conteudo servico_exemplo (upstream_stub 200 (PDict ∅))
    "tell me about cats" 0.9%float None =
    Erro (Raise Exception_ msg_formato_inesperado).
Proof.
  intros corpo. split; [reflexivity|]. split; [reflexivity|].
  split; [reflexivity|]. split; [|reflexivity].
  vm_compute. discriminate.
Qed.

Lemma mensagens_http_distintas :
  msg_limite_requisicoes ≠ msg_api_key_invalida ∧
  (∀ sc s, msg_erro_http sc s ≠ msg_limite_requisicoes ∧
           msg_erro_http sc s ≠ msg_api_key_invalida).
Proof.
  split; [by vm_compute|].
  intros sc s. unfold msg_erro_http, msg_limite_requisicoes, msg_api_key_invalida.
  split; cbn; discriminate.
Qed.

(** C4, as the code has it.  Where the claim says any non-2xx status, the
    code delegates to [raise_for_status], which raises for the statuses from
    400 to 599 only.  For those: 429 gives the rate-limit message, 401 the
    invalid-key message, any other the HTTP-error message that spells out
    the status code; the three messages are pairwise different. *)
Theorem gerar_conteudo_erros_http
    self post prompt temperatura max_tokens response :
  post (requisicao self prompt temperatura max_tokens) = Ok response →
  400 ≤ status_code response < 600 →
  ∃ e, raise_for_status response = Erro e ∧ exc_classe e = HTTPError_ ∧
    let r := gerar_conteudo self post prompt temperatura max_tokens in
    (status_code response = 429 →
       r = Erro (Raise Exception_ msg_limite_requisicoes)) ∧
    (status_code response = 401 →
       r = Erro (Raise Exception_ msg_api_key_invalida)) ∧
    (status_code response ≠ 429 → status_code response ≠ 401 →
       r = Erro (Raise Exception_
                   (msg_erro_http (status_code response) (exc_msg e))) ∧
       msg_erro_http (status_code response) (exc_msg e) =
         "❌ Erro HTTP " +:+ pretty (status_code response) +:+ ": " +:+ exc_msg e) ∧
    msg_limite_requisicoes ≠ msg_api_key_invalida ∧
    (∀ sc s, msg_erro_http sc s ≠ msg_limite_requisicoes ∧
             msg_erro_http sc s ≠ msg_api_key_invalida).
Proof.
  intros Hpost Hst.
  destruct (raise_for_status_erro response Hst) as (e & He & Hcl).
  exists e. split; [done|]. split; [done|].
  assert (gerar_conteudo self post prompt temperatura max_tokens =
            Erro (tratar (Some response) e)) as Hr.
  { unfold gerar_conteudo. by rewrite Hpost, He. }
  cbn zeta. rewrite Hr. unfold tratar, isinstance. rewrite Hcl.
  split; [|split; [|split]].
  - by intros ->.
  - by intros ->.
  - intros H429 H401.
    apply Z.eqb_neq in H429, H401. by rewrite H429, H401.
  - apply mensagens_http_distintas.
Qed.

Lemma gerar_conteudo_erros_http_witness :
  gerar_conteudo servico_exemplo (upstream_stub 429 corpo_cats)
    "tell me about cats" 0.9%float None =
    Erro (Raise Exception_ msg_limite_requisicoes).
Proof.
  destruct (gerar_conteudo_erros_http servico_exemplo
              (upstream_stub 429 corpo_cats) "tell me about cats" 0.9%float None
              (MkResponse 429 ""
                 (req_url (requisicao servico_exemplo "tell me about cats"
                             0.9%float None))
                 (Ok corpo_cats))
              eq_refl ltac:(cbn; lia)) as (e & _ & _ & H429 & _).
  apply H429. reflexivity.
Defined.

(** A status outside 2xx and outside 400-599 is not an error for the code:
    with status 300 and a well-formed body the text is returned. *)
Lemma gerar_conteudo_status_300 :
  ¬ (200 ≤ 300 < 300) ∧ 300 ≠ 429 ∧ 300 ≠ 401 ∧
  gerar_conteudo servico_exemplo (upstream_stub 300 corpo_cats)
    "tell me about cats" 0.9%float None = Ok (PStr "Cats rule.").
Proof. split; [lia|]. split; [lia|]. split; [lia|]. reflexivity. Qed.

(** What the code sends.  The test on [max_tokens] is a truth test: the
    [generationConfig] of the request has the key [maxOutputTokens] exactly
    when a non-zero [max_tokens] was passed, and then with that value; with
    [None] the key is absent.  The request so built is the only thing
    [gerar_conteudo] shows the network. *)
Theorem maxOutputTokens_se_fornecido
    (self : GeminiService) (prompt : string) (temperatura : float)
    (max_tokens : option Z) :
  let config := generationConfig temperatura max_tokens in
  getitem_str (req_json (requisicao self prompt temperatura max_tokens))
    "generationConfig" = Ok (PDict config) ∧
  (is_Some (config !! "maxOutputTokens") ↔
     ∃ n, max_tokens = Some n ∧ n ≠ 0) ∧
  (∀ n, max_tokens = Some n → n ≠ 0 →
     config !! "maxOutputTokens" = Some (PInt n)) ∧
  (max_tokens = None → config !! "maxOutputTokens" = None) ∧
  (∀ post post',
     post (requisicao self prompt temperatura max_tokens) =
       post' (requisicao self prompt temperatura max_tokens) →
     gerar_conteudo self post prompt temperatura max_tokens =
       gerar_conteudo self post' prompt temperatura max_tokens).
Proof.
  intros config. split; [reflexivity|].
  assert (∀ n, max_tokens = Some n → n ≠ 0 →
            config !! "maxOutputTokens" = Some (PInt n)) as Hsome.
  { intros n -> Hn. subst config. unfold generationConfig, truthy_optint.
    apply Z.eqb_neq in Hn. rewrite Hn. cbn [negb default].
    apply lookup_insert_eq. }
  assert (truthy_optint max_tokens = false →
            config !! "maxOutputTokens" = None) as Hnone.
  { intros Hf. subst config. unfold generationConfig. rewrite Hf. reflexivity. }
  split; [|split; [exact Hsome|split]].
  - split.
    + intros Hs. destruct max_tokens as [n|].
      * destruct (decide (n = 0)) as [->|Hn]; [|by eauto].
        rewrite Hnone in Hs by done. by destruct Hs.
      * rewrite Hnone in Hs by done. by destruct Hs.
    + intros (n & Hm & Hn). rewrite (Hsome n Hm Hn). by eexists.
  - intros ->. by apply Hnone.
  - intros post post' Heq. unfold gerar_conteudo. by rewrite Heq.
Qed.

Lemma maxOutputTokens_se_fornecido_witness :
  generationConfig 0.9%float (Some 256) !! "maxOutputTokens" = Some (PInt 256) ∧
  generationConfig 0.9%float None !! "maxOutputTokens" = None.
Proof.
  split.
  - destruct (maxOutputTokens_se_fornecido servico_exemplo "tell me about cats"
                0.9%float (Some 256)) as (_ & _ & H & _).
    apply (H 256 eq_refl). lia.
  - destruct (maxOutputTokens_se_fornecido servico_exemplo "tell me about cats"
                0.9%float None) as (_ & _ & _ & H & _).
    apply H. reflexivity.
Defined.

(** C5, at the input where the code departs from it.  A limit of 0 is
    provided by the caller and yet left out of the payload: the request is
    the one built for no limit at all, and so is the outcome of the call.
    The guard is a truth test, not a test for [None] nor a test of validity:
    a limit of -1 is sent as given. *)
Theorem maxOutputTokens_zero_omitido
    (self : GeminiService) (prompt : string) (temperatura : float) :
  truthy_optint (Some 0) = false ∧
  generationConfig temperatura (Some 0) !! "maxOutputTokens" = None ∧
  generationConfig temperatura (Some 0) !! "maxOutputTokens" ≠ Some (PInt 0) ∧
  requisicao self prompt temperatura (Some 0) =
    requisicao self prompt temperatura None ∧
  (∀ post, gerar_conteudo self post prompt temperatura (Some 0) =
           gerar_conteudo self post prompt temperatura None) ∧
  generationConfig temperatura (Some (-1)) !! "maxOutputTokens" = Some (PInt (-1)).
Proof.
  split; [reflexivity|]. split; [reflexivity|]. split; [discriminate|].
  split; [reflexivity|]. split; [reflexivity|].
  unfold generationConfig. cbn [truthy_optint Z.eqb negb default].
  apply lookup_insert_eq.
Qed.

(** C6. Construction raises [ValueError] exactly when the environment gives
    no usable key: the variable is unset, empty, or still the placeholder of
    [.env.example].  Otherwise the client is built around that key, and the
    key is what its requests carry.  The application start fails in the same
    cases, so no handler runs without a validated client. *)
Theorem GeminiService_init_valida (environ : gmap string string) :
  let chave := environ !! "GEMINI_API_KEY" in
  let ausente := chave = None ∨ chave = Some "" in
  ((∃ e, GeminiService_init environ = Erro e) ↔
     ausente ∨ chave = Some sua_api_key_aqui) ∧
  (∀ e, GeminiService_init environ = Erro e →
     e = Raise ValueError_ msg_api_key_nao_configurada) ∧
  (∀ self, GeminiService_init environ = Ok self →
     chave = Some (api_key self) ∧
     api_key self ≠ "" ∧ api_key self ≠ sua_api_key_aqui ∧
     ∀ prompt temperatura max_tokens,
       req_params (requisicao self prompt temperatura max_tokens) !! "key" =
         Some (api_key self)) ∧
  (∀ e, GeminiService_init environ = Erro e → main_iniciar environ = Erro e) ∧
  (∀ app, main_iniciar environ = Ok app →
     GeminiService_init environ = Ok (gemini app)).
Proof.
  intros chave ausente. subst ausente.
  unfold main_iniciar, GeminiService_init. fold chave.
  destruct chave as [k|] eqn:Hk; cbn [not_optstr optstr_eqb default orb].
  2: { split; [split; [by auto|by eauto]|]. repeat split; by intros; simplify_eq. }
  destruct (String.eqb_spec k "") as [->|Hvazia]; cbn [orb].
  { split; [split; [by auto|by eauto]|]. repeat split; by intros; simplify_eq. }
  destruct (String.eqb_spec k sua_api_key_aqui) as [->|Hplace].
  { split; [split; [by auto|by eauto]|]. repeat split; by intros; simplify_eq. }
  split; [|split; [|split; [|split]]].
  - split; [by intros [? ?]|]. intros [[?|?]|?]; simplify_eq.
  - by intros.
  - intros self [= <-]. cbn. repeat split; try done.
  - by intros.
  - intros app [= <-]. done.
Qed.

Lemma GeminiService_init_valida_witness :
  GeminiService_init (<["GEMINI_API_KEY" := "chave"]> ∅) = Ok servico_exemplo ∧
  GeminiService_init ∅ = Erro (Raise ValueError_ msg_api_key_nao_configurada) ∧
  GeminiService_init (<["GEMINI_API_KEY" := sua_api_key_aqui]> ∅) =
    Erro (Raise ValueError_ msg_api_key_nao_configurada).
Proof.
  split; [reflexivity|]. split.
  - destruct (GeminiService_init_valida ∅) as (_ & H & _).
    destruct (GeminiService_init ∅) as [s|e] eqn:E; [discriminate E|].
    f_equal. by apply H.
  - reflexivity.
Defined.

(** * Further properties *)

(** ** More on the history log *)

(** X1. An append never shortens the log and lengthens it by at most one:
    below the cap the log grows by one, at or above it the size stays as it
    was.  Only one entry is evicted per append, so a log that is already
    over its cap is not brought back under it. *)
Theorem adicionar_comprimento (x : Interacao) (h : HistoricoInteracoes) :
  let n := length (interacoes h) in
  let n' := length (interacoes (estado_apos (adicionar x) h)) in
  (n ≤ n' ≤ n + 1)%nat ∧
  (Z.of_nat n < limite h → n' = S n) ∧
  (limite h ≤ Z.of_nat n → n' = n).
Proof.
  intros n n'. subst n n'. rewrite adicionar_interacoes.
  case_bool_decide as Hgt;
    rewrite ?length_drop, length_app; cbn [length]; lia.
Qed.

Lemma adicionar_comprimento_witness :
  let h := {| interacoes := interacoes_exemplo 3; limite := 2 |} in
  length (interacoes (estado_apos (adicionar (MkInteracao 9 "a" "b" agora_exemplo "piada")) h))
    = 3%nat.
Proof.
  intros h.
  destruct (adicionar_comprimento (MkInteracao 9 "a" "b" agora_exemplo "piada") h)
    as (_ & _ & H).
  apply H. cbn. lia.
Defined.

Lemma passo_limite p op :
  limite (proc_historico (passo p op).1) = limite (proc_historico p).
Proof. by destruct op as [? ? ? ? [|]| | | |]. Qed.

Lemma passo_dentro_do_limite p op :
  0 ≤ limite (proc_historico p) →
  Z.of_nat (length (interacoes (proc_historico p))) ≤ limite (proc_historico p) →
  Z.of_nat (length (interacoes (proc_historico (passo p op).1)))
    ≤ limite (proc_historico p).
Proof.
  intros H0 Hle. destruct op as [agora u r c [|]| | | |]; try done.
  change (proc_historico (passo p (OpNova agora u r c true)).1)
    with (estado_apos (adicionar (Interacao_init (contador p) agora u r c).1)
            (proc_historico p)).
  rewrite adicionar_interacoes.
  case_bool_decide as Hgt;
    rewrite ?length_drop, length_app; cbn [length]; lia.
Qed.

(** X2. The cap is an invariant of the process: if the history starts within
    a cap that is not negative, then after any sequence of constructor
    calls, appends, clears and reads it is still within it, and the cap
    itself has not changed. *)
Theorem historico_dentro_do_limite (ops : list Operacao) (p : Processo) :
  0 ≤ limite (proc_historico p) →
  Z.of_nat (length (interacoes (proc_historico p))) ≤ limite (proc_historico p) →
  let final := (executar ops p).1 in
  limite (proc_historico final) = limite (proc_historico p) ∧
  Z.of_nat (length (interacoes (proc_historico final)))
    ≤ limite (proc_historico p).
Proof.
  revert p. induction ops as [|op ops IH]; intros p H0 Hle; [done|].
  rewrite executar_cons. cbn [fst].
  pose proof (passo_limite p op) as Hlim.
  pose proof (passo_dentro_do_limite p op H0 Hle) as Hstep.
  destruct (IH (passo p op).1) as [IHlim IHle]; [by rewrite Hlim..|].
  cbn zeta. rewrite IHlim, Hlim. split; [done|]. by rewrite <- Hlim.
Qed.

Lemma historico_dentro_do_limite_witness :
  let ops := replicate 60 (OpNova agora_exemplo "gatos" "Uma piada." (Some "piada") true) in
  Z.of_nat (length (interacoes (proc_historico (executar ops processo_inicial).1)))
    ≤ 50.
Proof.
  intros ops.
  destruct (historico_dentro_do_limite ops processo_inicial) as [_ H].
  - by vm_compute.
  - by vm_compute.
  - exact H.
Defined.

(** X3. From any log that is within a non-negative cap, a run of appends
    leaves the last [limite] entries of the old contents followed by the new
    ones: eviction is first in, first out across the old and the new. *)
Theorem adicionar_todas_ultimas (xs : list Interacao) (h : HistoricoInteracoes) :
  0 ≤ limite h →
  Z.of_nat (length (interacoes h)) ≤ limite h →
  interacoes (adicionar_todas xs h) =
    drop (length (interacoes h ++ xs) - Z.to_nat (limite h)) (interacoes h ++ xs).
Proof.
  intros H0 Hle. induction xs as [|x xs IH] using rev_ind.
  { rewrite app_nil_r. cbn.
    replace (length (interacoes h) - Z.to_nat (limite h))%nat with 0%nat by lia.
    done. }
  rewrite adicionar_todas_snoc, adicionar_interacoes, adicionar_todas_limite, IH.
  rewrite length_drop, !length_app; cbn [length].
  rewrite (app_assoc (interacoes h) xs [x]).
  case_bool_decide as Hgt.
  - rewrite <- (drop_app_le (interacoes h ++ xs) [x]) by (rewrite length_app; lia).
    rewrite drop_drop. f_equal. lia.
  - replace (length (interacoes h) + length xs - Z.to_nat (limite h))%nat
      with 0%nat by lia.
    replace (length (interacoes h) + (length xs + 1) - Z.to_nat (limite h))%nat
      with 0%nat by lia.
    done.
Qed.

Lemma adicionar_todas_ultimas_witness :
  let h := {| interacoes := interacoes_exemplo 2; limite := 3 |} in
  let x := MkInteracao 7 "a" "b" agora_exemplo "geral" in
  let y := MkInteracao 8 "c" "d" agora_exemplo "geral" in
  interacoes (adicionar_todas [x; y] h) = drop 1 (interacoes_exemplo 2) ++ [x; y].
Proof.
  intros h x y.
  rewrite (adicionar_todas_ultimas [x; y] h); [reflexivity|cbn; lia|cbn; lia].
Defined.

(** X4. The interaction just appended is the newest entry of the log,
    provided the cap is at least one or the log was not empty; on an empty
    log whose cap is zero or less the append is undone at once. *)
Theorem adicionar_ultima (x : Interacao) (h : HistoricoInteracoes) :
  (1 ≤ limite h ∨ interacoes h ≠ [] →
     last (interacoes (estado_apos (adicionar x) h)) = Some x) ∧
  (limite h ≤ 0 → interacoes h = [] →
     interacoes (estado_apos (adicionar x) h) = []).
Proof.
  rewrite adicionar_interacoes. split.
  - intros Hor. case_bool_decide as Hgt; [|by rewrite last_snoc].
    destruct (interacoes h) as [|y l] eqn:El.
    + destruct Hor as [?|?]; [cbn in Hgt; lia|done].
    + cbn [app drop]. rewrite drop_0. by rewrite last_snoc.
  - intros Hl ->. cbn. rewrite bool_decide_eq_true_2 by lia. done.
Qed.

Lemma adicionar_ultima_witness :
  let x := MkInteracao 9 "a" "b" agora_exemplo "piada" in
  last (interacoes (estado_apos (adicionar x) (HistoricoInteracoes_init 50))) = Some x ∧
  interacoes (estado_apos (adicionar x) (HistoricoInteracoes_init 0)) = [].
Proof.
  intros x. split.
  - destruct (adicionar_ultima x (HistoricoInteracoes_init 50)) as [H _].
    apply H. left. cbn. lia.
  - destruct (adicionar_ultima x (HistoricoInteracoes_init 0)) as [_ H].
    apply H; [cbn; lia|reflexivity].
Defined.

(** ** The views *)

Lemma para_dict_lookup (x : Interacao) :
  para_dict x !! "id" = Some (PInt (id x)) ∧
  para_dict x !! "usuario_input" = Some (PStr (usuario_input x)) ∧
  para_dict x !! "ia_resposta" = Some (PStr (ia_resposta x)) ∧
  para_dict x !! "timestamp" = Some (PStr (strftime_dmY_HMS (timestamp x))) ∧
  para_dict x !! "categoria" = Some (PStr (categoria x)).
Proof.
  unfold para_dict.
  rewrite lookup_insert_eq.
  rewrite (lookup_insert_ne _ "id" "usuario_input"), lookup_insert_eq by done.
  rewrite !(lookup_insert_ne _ _ "ia_resposta"), lookup_insert_eq by done.
  rewrite !(lookup_insert_ne _ _ "timestamp"), lookup_insert_eq by done.
  rewrite !(lookup_insert_ne _ _ "categoria"), lookup_insert_eq by done.
  done.
Qed.

(** X6. Two interactions have the same view exactly when they agree on id,
    input, response, category and on the formatted time: the view keeps
    everything of the object but what the time format leaves out (the
    microseconds). *)
Theorem para_dict_determina (x y : Interacao) :
  para_dict x = para_dict y ↔
    id x = id y ∧ usuario_input x = usuario_input y ∧
    ia_resposta x = ia_resposta y ∧ categoria x = categoria y ∧
    strftime_dmY_HMS (timestamp x) = strftime_dmY_HMS (timestamp y).
Proof.
  split.
  - intros H.
    destruct (para_dict_lookup x) as (H1 & H2 & H3 & H4 & H5).
    destruct (para_dict_lookup y) as (G1 & G2 & G3 & G4 & G5).
    rewrite H in H1, H2, H3, H4, H5.
    repeat split; congruence.
  - intros (H1 & H2 & H3 & H4 & H5). unfold para_dict. congruence.
Qed.

(** X7. Every view that [obter_por_categoria c] returns carries the category
    [c] under its [categoria] key and is among the views of [obter_todas]; so
    no view is returned for two different categories, and there are never
    more of them than [total]. *)
Theorem obter_por_categoria_visoes (h : HistoricoInteracoes) (c : string) :
  (∀ d, d ∈ valor_de (obter_por_categoria c) h →
        d !! "categoria" = Some (PStr c) ∧ d ∈ valor_de obter_todas h) ∧
  (∀ c' d, c' ≠ c → d ∈ valor_de (obter_por_categoria c) h →
        d ∉ valor_de (obter_por_categoria c') h) ∧
  Z.of_nat (length (valor_de (obter_por_categoria c) h)) ≤ valor_de total h.
Proof.
  assert (Hcat : ∀ c0 d, d ∈ valor_de (obter_por_categoria c0) h →
            d !! "categoria" = Some (PStr c0) ∧ d ∈ valor_de obter_todas h).
  { intros c0 d. unfold valor_de, obter_por_categoria, obter_todas. cbn [fst].
    rewrite compreensao_categoria_filter.
    intros (x & -> & Hx)%list_elem_of_fmap.
    apply list_elem_of_filter in Hx as [<- Hx]. split.
    - apply para_dict_lookup.
    - by apply list_elem_of_fmap_2. }
  split; [apply Hcat|]. split.
  - intros c' d Hne Hd Hd'.
    apply Hcat in Hd as [Hd _]. apply Hcat in Hd' as [Hd' _]. congruence.
  - unfold valor_de, obter_por_categoria, total. cbn [fst].
    rewrite compreensao_categoria_filter, length_fmap.
    pose proof (length_filter (λ x, categoria x = c) (interacoes h)). lia.
Qed.

Lemma obter_por_categoria_visoes_witness :
  para_dict (MkInteracao 1 "gatos" "Uma piada." agora_exemplo "piada") !! "categoria"
    = Some (PStr "piada").
Proof.
  destruct (obter_por_categoria_visoes
              {| interacoes := [MkInteracao 1 "gatos" "Uma piada." agora_exemplo "piada"];
                 limite := 50 |} "piada")
    as [H _].
  destruct (H (para_dict (MkInteracao 1 "gatos" "Uma piada." agora_exemplo "piada")))
    as [Hd _]; [|exact Hd].
  exact (list_elem_of_here _ []).
Defined.

(** ** More on [gerar_conteudo] *)

Lemma getitem_str_Ok (v x : pyval) (k : string) :
  getitem_str v k = Ok x ↔ ∃ d, v = PDict d ∧ d !! k = Some x.
Proof.
  split.
  - destruct v as [| | | | | |d]; try done. cbn.
    destruct (d !! k) eqn:E; [|done]. intros [= ->]. eauto.
  - intros (d & -> & E). cbn. by rewrite E.
Qed.

Lemma getitem_str_classe (v : pyval) (k : string) (e : excecao) :
  getitem_str v k = Erro e → exc_classe e = KeyError_ ∨ exc_classe e = TypeError_.
Proof.
  destruct v as [| | | | | |d]; cbn; try (intros [= <-]; auto).
  destruct (d !! k); [done|]. intros [= <-]. auto.
Qed.

Lemma getitem_0_classe (v : pyval) (e : excecao) :
  getitem_0 v = Erro e →
  exc_classe e = KeyError_ ∨ exc_classe e = IndexError_ ∨ exc_classe e = TypeError_.
Proof.
  destruct v as [| | | |[|]|[|]|d]; cbn; try done; intros [= <-]; auto.
Qed.

Lemma extrair_texto_classe (data : pyval) (e : excecao) :
  extrair_texto data = Erro e →
  exc_classe e = KeyError_ ∨ exc_classe e = IndexError_ ∨ exc_classe e = TypeError_.
Proof.
  unfold extrair_texto, res_bind.
  repeat match goal with
  | |- context [match getitem_str ?v ?k with _ => _ end] =>
      let H := fresh in
      destruct (getitem_str v k) eqn:H;
        [|intros [= <-]; apply getitem_str_classe in H; tauto]
  | |- context [match getitem_0 ?v with _ => _ end] =>
      let H := fresh in
      destruct (getitem_0 v) eqn:H;
        [|intros [= <-]; by apply getitem_0_classe in H]
  end.
  intros Hfim. apply getitem_str_classe in Hfim. tauto.
Qed.

Lemma tratar_fechado (response : option Response) (e : excecao) :
  (response = None → exc_classe e ≠ HTTPError_) →
  exc_classe (tratar response e) = Exception_ ∧
  mensagem_gerar_conteudo (exc_msg (tratar response e)).
Proof.
  intros Hresp. unfold tratar, mensagem_gerar_conteudo.
  destruct (isinstance e Timeout_); [cbn; auto|].
  destruct (isinstance e ConnectionError_); [cbn; auto|].
  destruct (isinstance e HTTPError_) eqn:Hhttp.
  - destruct response as [response|].
    + destruct (status_code response =? 429); [cbn; auto 10|].
      destruct (status_code response =? 401); [cbn; auto 10|].
      cbn. split; [done|]. do 4 right. left. eauto.
    + exfalso. apply Hresp; [done|].
      unfold isinstance in Hhttp. by destruct (exc_classe e).
  - destruct (isinstance e KeyError_); [cbn; auto 10|].
    cbn. split; [done|]. do 6 right. eauto.
Qed.

(** X8. [gerar_conteudo] returns a text exactly when the request was
    answered, the status is not one from 400 to 599, the body decodes as
    JSON, and the subscript chain [candidates][0][content][parts][0][text]
    finds a value in it; the value returned is that one. *)
Theorem gerar_conteudo_sucesso
    (self : GeminiService) (post : Request → resultado Response)
    (prompt : string) (temperatura : float) (max_tokens : option Z) (t : pyval) :
  gerar_conteudo self post prompt temperatura max_tokens = Ok t ↔
  ∃ response data,
    post (requisicao self prompt temperatura max_tokens) = Ok response ∧
    ¬ (400 ≤ status_code response < 600) ∧
    json response = Ok data ∧
    extrair_texto data = Ok t.
Proof.
  unfold gerar_conteudo.
  destruct (post _) as [response|e] eqn:Hpost; split.
  - destruct (decide (400 ≤ status_code response < 600)) as [Hst|Hst].
    { destruct (raise_for_status_erro response Hst) as (e & -> & _). done. }
    rewrite raise_for_status_ok by done. cbn [res_bind].
    destruct (json response) as [data|e] eqn:Hjson; [|done]. cbn [res_bind].
    destruct (extrair_texto data) as [t'|e] eqn:Ht; [|done].
    intros [= ->]. eauto 10.
  - intros (response' & data & [= <-] & Hst & Hjson & Ht).
    rewrite raise_for_status_ok by done. cbn [res_bind].
    rewrite Hjson. cbn [res_bind]. by rewrite Ht.
  - done.
  - by intros (response & data & [=] & _).
Qed.

(** X9. When the request itself fails, a timeout (of either phase) is
    reported with the timeout message and a connection error with the
    connection message.  A connect timeout is both in [requests]; the
    clause for timeouts comes first, so it is reported as a timeout.  The
    two messages differ. *)
Theorem gerar_conteudo_falha_transporte
    (self : GeminiService) (post : Request → resultado Response)
    (prompt : string) (temperatura : float) (max_tokens : option Z)
    (e : excecao) :
  post (requisicao self prompt temperatura max_tokens) = Erro e →
  let r := gerar_conteudo self post prompt temperatura max_tokens in
  (exc_classe e ∈ [Timeout_; ReadTimeout_; ConnectTimeout_] →
     r = Erro (Raise Exception_ msg_timeout)) ∧
  (exc_classe e = ConnectionError_ →
     r = Erro (Raise Exception_ msg_conexao)) ∧
  msg_timeout ≠ msg_conexao.
Proof.
  intros Hpost r. subst r. unfold gerar_conteudo. rewrite Hpost.
  unfold tratar, isinstance. split; [|split].
  - rewrite !elem_of_cons, elem_of_nil. intros [->|[->|[->|[]]]]; done.
  - by intros ->.
  - by vm_compute.
Qed.

Lemma gerar_conteudo_falha_transporte_witness :
  gerar_conteudo servico_exemplo
    (λ _, Erro (Raise ConnectTimeout_ "Connection to host timed out"))
    "tell me about cats" 0.9%float None =
  Erro (Raise Exception_ msg_timeout).
Proof.
  destruct (gerar_conteudo_falha_transporte servico_exemplo
              (λ _, Erro (Raise ConnectTimeout_ "Connection to host timed out"))
              "tell me about cats" 0.9%float None
              (Raise ConnectTimeout_ "Connection to host timed out") eq_refl)
    as (H & _ & _).
  apply H. cbn. rewrite !elem_of_cons. auto.
Defined.

(** X10. Whatever the upstream does, a failure of [gerar_conteudo] is an
    [Exception] carrying one of the seven messages of its [except] clauses,
    provided [requests.post] does not itself raise an [HTTPError] (the
    clause for [HTTPError] reads [response], which is not bound then). *)
Theorem gerar_conteudo_erros_fechados
    (self : GeminiService) (post : Request → resultado Response)
    (prompt : string) (temperatura : float) (max_tokens : option Z)
    (e' : excecao) :
  (∀ e, post (requisicao self prompt temperatura max_tokens) = Erro e →
        exc_classe e ≠ HTTPError_) →
  gerar_conteudo self post prompt temperatura max_tokens = Erro e' →
  exc_classe e' = Exception_ ∧ mensagem_gerar_conteudo (exc_msg e').
Proof.
  intros Hpost. unfold gerar_conteudo.
  destruct (post _) as [response|e] eqn:E.
  - destruct (res_bind _ _) as [t|e]; [done|].
    intros [= <-]. by apply tratar_fechado.
  - intros [= <-]. apply tratar_fechado. intros _. by apply Hpost.
Qed.

Lemma gerar_conteudo_erros_fechados_witness :
  mensagem_gerar_conteudo (msg_erro_inesperado "list index out of range").
Proof.
  apply (gerar_conteudo_erros_fechados servico_exemplo
           (upstream_stub 200 (PDict (<["candidates" := PList []]> ∅)))
           "tell me about cats" 0.9%float None
           (Raise Exception_ (msg_erro_inesperado "list index out of range"))).
  - intros e. cbn. discriminate.
  - reflexivity.
Defined.

(** X11. On a status that is not an error, a body in which the text cannot
    be found is reported in one of two ways.  The subscript chain fails with
    a [KeyError], an [IndexError] or a [TypeError]; only the [KeyError] is
    reported as a response of unexpected format, the other two (an empty
    list, a value of the wrong type) as an unexpected error with the
    message of the exception.  A body that does not decode as JSON is
    reported as an unexpected error too. *)
Theorem gerar_conteudo_corpo_invalido
    (self : GeminiService) (post : Request → resultado Response)
    (prompt : string) (temperatura : float) (max_tokens : option Z)
    (response : Response) :
  post (requisicao self prompt temperatura max_tokens) = Ok response →
  ¬ (400 ≤ status_code response < 600) →
  let r := gerar_conteudo self post prompt temperatura max_tokens in
  (∀ data e, json response = Ok data → extrair_texto data = Erro e →
     (exc_classe e = KeyError_ ∧
      r = Erro (Raise Exception_ msg_formato_inesperado)) ∨
     ((exc_classe e = IndexError_ ∨ exc_classe e = TypeError_) ∧
      r = Erro (Raise Exception_ (msg_erro_inesperado (exc_msg e))))) ∧
  (∀ e, json response = Erro e → exc_classe e = JSONDecodeError_ →
     r = Erro (Raise Exception_ (msg_erro_inesperado (exc_msg e)))).
Proof.
  intros Hpost Hst r. subst r. unfold gerar_conteudo.
  rewrite Hpost, raise_for_status_ok by done. cbn [res_bind]. split.
  - intros data e -> He. cbn [res_bind]. rewrite He.
    unfold tratar, isinstance.
    destruct (extrair_texto_classe data e He) as [Hc|[Hc|Hc]]; rewrite Hc; auto.
  - intros e -> Hc. cbn [res_bind]. unfold tratar, isinstance. by rewrite Hc.
Qed.

Lemma gerar_conteudo_corpo_invalido_witness :
  gerar_conteudo servico_exemplo
    (upstream_stub 200 (PDict (<["candidates" := PStr "x"]> ∅)))
    "tell me about cats" 0.9%float None =
  Erro (Raise Exception_
          (msg_erro_inesperado "string indices must be integers, not 'str'")).
Proof.
  pose (corpo := PDict (<["candidates" := PStr "x"]> ∅)).
  destruct (gerar_conteudo_corpo_invalido servico_exemplo
              (upstream_stub 200 corpo) "tell me about cats" 0.9%float None
              (MkResponse 200 ""
                 (req_url (requisicao servico_exemplo "tell me about cats"
                             0.9%float None))
                 (Ok corpo))
              eq_refl ltac:(cbn; lia)) as [H _].
  destruct (H corpo
              (Raise TypeError_ "string indices must be integers, not 'str'")
              eq_refl eq_refl) as [[Hk _]|[_ Hr]].
  - discriminate Hk.
  - exact Hr.
Defined.

(** ** [gerar_com_contexto] *)

(** The formatting loop succeeds exactly on a list of dicts that each have a
    [role] and a [text], and gives one formatted entry per message, in
    order, holding those two values and nothing else of the message. *)
Lemma formatar_mensagens_Forall2 (mensagens l : list pyval) :
  formatar_mensagens mensagens = Ok l ↔
  Forall2 (λ msg f, ∃ d role text,
             msg = PDict d ∧ d !! "role" = Some role ∧ d !! "text" = Some text ∧
             f = PDict (<["role" := role]>
                       (<["parts" := PList [PDict (<["text" := text]> ∅)]]> ∅)))
    mensagens l.
Proof.
  revert l. induction mensagens as [|msg mensagens IH]; intros l.
  { cbn. split; [intros [= <-]; constructor|].
    intros H. by apply Forall2_nil_inv_l in H as ->. }
  cbn [formatar_mensagens]. unfold res_bind at 1 2 3. split.
  - destruct (getitem_str msg "role") as [role|] eqn:Hr; [|done].
    destruct (getitem_str msg "text") as [text|] eqn:Ht; [|done].
    destruct (formatar_mensagens mensagens) as [l'|] eqn:Hl; [|done].
    intros [= <-]. constructor; [|by apply IH].
    apply getitem_str_Ok in Hr as (d & -> & Hr).
    apply getitem_str_Ok in Ht as (d' & [= <-] & Ht). eauto 10.
  - intros H. apply Forall2_cons_inv_l in H
      as (f & l' & (d & role & text & -> & Hr & Ht & ->) & Hl & ->).
    apply IH in Hl. cbn. by rewrite Hr, Ht, Hl.
Qed.

Lemma formatar_mensagens_classe (mensagens : list pyval) (e : excecao) :
  formatar_mensagens mensagens = Erro e →
  exc_classe e = KeyError_ ∨ exc_classe e = TypeError_.
Proof.
  induction mensagens as [|msg mensagens IH]; [done|].
  cbn [formatar_mensagens]. unfold res_bind at 1 2 3.
  destruct (getitem_str msg "role") as [role|] eqn:Hr;
    [|intros [= <-]; by apply getitem_str_classe in Hr].
  destruct (getitem_str msg "text") as [text|] eqn:Ht;
    [|intros [= <-]; by apply getitem_str_classe in Ht].
  destruct (formatar_mensagens mensagens) as [l'|]; [done|].
  intros [= <-]. by apply IH.
Qed.

(** X12. [gerar_com_contexto] returns a text exactly when every message is a
    dict with a [role] and a [text], the request (whose [contents] has one
    entry per message, in order, with that role and that text as its single
    part) was answered with a status that is not one from 400 to 599, the
    body decodes as JSON and the subscript chain finds a value in it. *)
Theorem gerar_com_contexto_sucesso
    (self : GeminiService) (post : Request → resultado Response)
    (mensagens : list pyval) (temperatura : float) (t : pyval) :
  gerar_com_contexto self post mensagens temperatura = Ok t ↔
  ∃ l response data,
    Forall2 (λ msg f, ∃ d role text,
               msg = PDict d ∧ d !! "role" = Some role ∧ d !! "text" = Some text ∧
               f = PDict (<["role" := role]>
                         (<["parts" := PList [PDict (<["text" := text]> ∅)]]> ∅)))
      mensagens l ∧
    post (requisicao_contexto self l temperatura) = Ok response ∧
    ¬ (400 ≤ status_code response < 600) ∧
    json response = Ok data ∧
    extrair_texto data = Ok t.
Proof.
  unfold gerar_com_contexto. split.
  - destruct (formatar_mensagens mensagens) as [l|] eqn:Hl; [|done].
    apply formatar_mensagens_Forall2 in Hl.
    destruct (post _) as [response|] eqn:Hpost; [|done]. cbn [res_bind].
    destruct (decide (400 ≤ status_code response < 600)) as [Hst|Hst].
    { destruct (raise_for_status_erro response Hst) as (e & -> & _). done. }
    rewrite raise_for_status_ok by done. cbn [res_bind].
    destruct (json response) as [data|] eqn:Hjson; [|done]. cbn [res_bind].
    destruct (extrair_texto data) as [t'|] eqn:Ht; [|done].
    intros [= ->]. eauto 10.
  - intros (l & response & data & Hl & Hpost & Hst & Hjson & Ht).
    apply formatar_mensagens_Forall2 in Hl. rewrite Hl, Hpost. cbn [res_bind].
    rewrite raise_for_status_ok by done. cbn [res_bind].
    rewrite Hjson. cbn [res_bind]. by rewrite Ht.
Qed.

(** X13. If some message is not a dict with both a [role] and a [text], the
    call fails with the [KeyError] or [TypeError] of the subscript itself,
    not wrapped in the method's own error, and whatever the upstream would
    have answered: the formatting loop runs before the [try]. *)
Theorem gerar_com_contexto_mensagem_malformada
    (self : GeminiService) (mensagens : list pyval) (temperatura : float)
    (msg : pyval) :
  msg ∈ mensagens →
  ¬ (∃ d role text,
       msg = PDict d ∧ d !! "role" = Some role ∧ d !! "text" = Some text) →
  ∃ e, (exc_classe e = KeyError_ ∨ exc_classe e = TypeError_) ∧
       ∀ post, gerar_com_contexto self post mensagens temperatura = Erro e.
Proof.
  intros Hin Hmal. unfold gerar_com_contexto.
  destruct (formatar_mensagens mensagens) as [l|e] eqn:Hl.
  - exfalso. apply formatar_mensagens_Forall2 in Hl.
    apply list_elem_of_lookup in Hin as [i Hi].
    destruct (Forall2_lookup_l _ _ _ _ _ Hl Hi)
      as (f & _ & d & role & text & -> & Hr & Ht & _).
    apply Hmal. eauto 10.
  - exists e. split; [by eapply formatar_mensagens_classe|done].
Qed.

Lemma gerar_com_contexto_mensagem_malformada_witness :
  ∃ e, (exc_classe e = KeyError_ ∨ exc_classe e = TypeError_) ∧
       ∀ post,
         gerar_com_contexto servico_exemplo post
           [PDict (<["role" := PStr "user"]> (<["text" := PStr "Oi"]> ∅));
            PDict (<["role" := PStr "model"]> ∅)] 0.9%float = Erro e.
Proof.
  apply (gerar_com_contexto_mensagem_malformada servico_exemplo
           [PDict (<["role" := PStr "user"]> (<["text" := PStr "Oi"]> ∅));
            PDict (<["role" := PStr "model"]> ∅)] 0.9%float
           (PDict (<["role" := PStr "model"]> ∅))).
  - rewrite !elem_of_cons. auto.
  - intros (d & role & text & [= <-] & _ & Ht). vm_compute in Ht. discriminate Ht.
Defined.



(** ** The handlers of [main.py] *)

Lemma entrada_valida (py_strip : string → string) (py_len : string → Z)
    (user_input : string) :
  String.eqb user_input "" || bool_decide (py_len (py_strip user_input) < 2) = false
  ↔ ¬ (user_input = "" ∨ py_len (py_strip user_input) < 2).
Proof.
  rewrite orb_false_iff, bool_decide_eq_false, String.eqb_neq. tauto.
Qed.

(** X15. [processar_input] answers with the page that asks for at least two
    characters, and leaves the process as it was, exactly when the input is
    empty or has fewer than two characters once stripped; the upstream plays
    no part in that answer. *)
Theorem processar_input_entrada_curta
    (py_strip : string → string) (py_len : string → Z)
    (servico : GeminiService) (post : Request → resultado Response)
    (agora : datetime) (user_input : string) (temperatura : float)
    (p : Processo) :
  processar_input py_strip py_len servico post agora user_input temperatura p =
    Some (TemplateResponse "resultado.html"
            (contexto_erro msg_poucos_caracteres user_input), p)
  ↔ user_input = "" ∨ py_len (py_strip user_input) < 2.
Proof.
  unfold processar_input.
  destruct (String.eqb user_input "" ||
            bool_decide (py_len (py_strip user_input) < 2)) eqn:E.
  - split; [|done]. intros _. apply orb_true_iff in E as [E|E].
    + left. by apply String.eqb_eq.
    + right. by apply bool_decide_eq_true in E.
  - apply entrada_valida in E. split; [|done].
    destruct (gerar_conteudo _ _ _ _ _) as [[| | | |resposta_ia| |]|e]; done.
Qed.

(** X16. When the input is long enough and [gerar_conteudo] fails, the
    handler does not fail: it answers with the result page carrying the
    exception's message after [❌ Erro: ], nothing is stored and no id is
    used up.  Unless [requests.post] itself raised an [HTTPError], that
    message is one of the seven of [gerar_conteudo]. *)
Theorem processar_input_falha
    (py_strip : string → string) (py_len : string → Z)
    (servico : GeminiService) (post : Request → resultado Response)
    (agora : datetime) (user_input : string) (temperatura : float)
    (p : Processo) (e : excecao) :
  ¬ (user_input = "" ∨ py_len (py_strip user_input) < 2) →
  gerar_conteudo servico post (prompt_piada user_input) temperatura None = Erro e →
  processar_input py_strip py_len servico post agora user_input temperatura p =
    Some (TemplateResponse "resultado.html"
            (contexto_erro ("❌ Erro: " +:+ exc_msg e) user_input), p) ∧
  ((∀ e0, post (requisicao servico (prompt_piada user_input) temperatura None)
            = Erro e0 → exc_classe e0 ≠ HTTPError_) →
   mensagem_gerar_conteudo (exc_msg e)).
Proof.
  intros Hval%entrada_valida Hg. split.
  - unfold processar_input. by rewrite Hval, Hg.
  - intros Hpost. unfold gerar_conteudo in Hg.
    destruct (post _) as [response|e0] eqn:E.
    + destruct (res_bind _ _) as [t|e1]; [done|].
      injection Hg as <-. by apply tratar_fechado.
    + injection Hg as <-. apply tratar_fechado. intros _. by apply Hpost.
Qed.

Lemma processar_input_falha_witness :
  processar_input strip_exemplo len_exemplo servico_exemplo
    (λ _, Erro (Raise ReadTimeout_ "Read timed out."))
    agora_exemplo "gatos" 0.9%float processo_inicial =
  Some (TemplateResponse "resultado.html"
          (contexto_erro ("❌ Erro: " +:+ msg_timeout) "gatos"), processo_inicial).
Proof.
  destruct (processar_input_falha strip_exemplo len_exemplo servico_exemplo
              (λ _, Erro (Raise ReadTimeout_ "Read timed out."))
              agora_exemplo "gatos" 0.9%float processo_inicial
              (Raise Exception_ msg_timeout)) as [H _].
  - intros [H|H]; [discriminate H|]. vm_compute in H. discriminate H.
  - reflexivity.
  - exact H.
Defined.

(** X17. When the input is long enough and [gerar_conteudo] returns a text,
    the handler creates exactly one interaction, with the next id, the input
    as typed, that text and the category [piada], appends it to the history,
    and answers with the result page, on which [total_interacoes] is the
    size of the history after the append. *)
Theorem processar_input_sucesso
    (py_strip : string → string) (py_len : string → Z)
    (servico : GeminiService) (post : Request → resultado Response)
    (agora : datetime) (user_input : string) (temperatura : float)
    (p : Processo) (resposta_ia : string) :
  ¬ (user_input = "" ∨ py_len (py_strip user_input) < 2) →
  gerar_conteudo servico post (prompt_piada user_input) temperatura None
    = Ok (PStr resposta_ia) →
  let interacao :=
    MkInteracao (contador p + 1) user_input resposta_ia agora "piada" in
  let p' := {| contador := contador p + 1;
               proc_historico := estado_apos (adicionar interacao) (proc_historico p) |} in
  processar_input py_strip py_len servico post agora user_input temperatura p =
    Some (TemplateResponse "resultado.html"
            (<["user_input" := PStr user_input]>
            (<["resultado" := PStr resposta_ia]>
            (<["temperatura" := PFloat temperatura]>
            (<["total_interacoes" :=
                 PInt (Z.of_nat (length (interacoes (proc_historico p'))))]> ∅)))),
          p').
Proof.
  intros Hval%entrada_valida Hg. unfold processar_input. by rewrite Hval, Hg.
Qed.

Lemma processar_input_sucesso_witness :
  processar_input strip_exemplo len_exemplo servico_exemplo
    (upstream_stub 200 corpo_cats) agora_exemplo "gatos" 0.9%float processo_inicial =
  Some (TemplateResponse "resultado.html"
          (<["user_input" := PStr "gatos"]>
          (<["resultado" := PStr "Cats rule."]>
          (<["temperatura" := PFloat 0.9%float]>
          (<["total_interacoes" := PInt 1]> ∅)))),
        {| contador := 1;
           proc_historico :=
             {| interacoes := [MkInteracao 1 "gatos" "Cats rule." agora_exemplo "piada"];
                limite := 50 |} |}).
Proof.
  apply (processar_input_sucesso strip_exemplo len_exemplo servico_exemplo
           (upstream_stub 200 corpo_cats) agora_exemplo "gatos" 0.9%float
           processo_inicial "Cats rule.").
  - intros [H|H]; [discriminate H|]. vm_compute in H. discriminate H.
  - reflexivity.
Defined.

(** X18. The two reading handlers change nothing and agree with each other:
    the history page lists the views of the stored interactions, oldest
    first, its [total] is the length of that list, and the health check
    reports the same number. *)
Theorem leituras_coerentes (p : Processo) :
  (ver_historico p).2 = p ∧ (health_check p).2 = p ∧
  ∃ l : list pyval,
    l = (λ x, PDict (para_dict x)) <$> interacoes (proc_historico p) ∧
    (ver_historico p).1 =
      TemplateResponse "historico.html"
        (<["interacoes" := PList l]>
        (<["total" := PInt (Z.of_nat (length l))]> ∅)) ∧
    (health_check p).1 =
      JSONResponse
        (<["status" := PStr "ok"]>
        (<["mensagem" := PStr "Aplicação rodando!"]>
        (<["versao" := PStr "1.0.0"]>
        (<["total_interacoes" := PInt (Z.of_nat (length l))]> ∅)))).
Proof.
  split; [by destruct p|]. split; [by destruct p|].
  eexists. split; [reflexivity|].
  unfold ver_historico, health_check, valor_de, estado_apos, obter_todas, total.
  cbn [fst snd]. rewrite length_fmap, <- list_fmap_compose. done.
Qed.

(** X19. After [limpar_historico] the history page is empty with total 0 and
    the health check reports 0, as the answer of [limpar_historico] itself
    says; the cap is kept and the id counter is not reset, so the next joke
    stored gets the id after the last one given out, and is alone in the
    history. *)
Theorem limpar_historico_depois
    (py_strip : string → string) (py_len : string → Z)
    (servico : GeminiService) (post : Request → resultado Response)
    (agora : datetime) (user_input : string) (temperatura : float)
    (p : Processo) (resposta_ia : string) :
  let p1 := (limpar_historico p).2 in
  (limpar_historico p).1 =
    JSONResponse (<["mensagem" := PStr "Histórico limpo!"]> (<["total" := PInt 0]> ∅)) ∧
  (ver_historico p1).1 =
    TemplateResponse "historico.html"
      (<["interacoes" := PList []]> (<["total" := PInt 0]> ∅)) ∧
  (∃ corpo, (health_check p1).1 = JSONResponse corpo ∧
            corpo !! "total_interacoes" = Some (PInt 0)) ∧
  contador p1 = contador p ∧
  limite (proc_historico p1) = limite (proc_historico p) ∧
  (¬ (user_input = "" ∨ py_len (py_strip user_input) < 2) →
   gerar_conteudo servico post (prompt_piada user_input) temperatura None
     = Ok (PStr resposta_ia) →
   1 ≤ limite (proc_historico p) →
   ∃ resposta p2,
     processar_input py_strip py_len servico post agora user_input temperatura p1
       = Some (resposta, p2) ∧
     interacoes (proc_historico p2) =
       [MkInteracao (contador p + 1) user_input resposta_ia agora "piada"]).
Proof.
  intros p1. subst p1. split; [done|]. split; [done|]. split.
  { eexists. split; [reflexivity|].
    rewrite !lookup_insert_ne, lookup_insert_eq by done. done. }
  split; [done|]. split; [done|].
  intros Hval%entrada_valida Hg Hlim.
  unfold processar_input. rewrite Hval, Hg.
  cbv beta iota zeta delta [Interacao_init]. eexists _, _. split; [reflexivity|].
  cbn [proc_historico]. rewrite adicionar_interacoes.
  cbn [limpar_historico snd proc_historico contador estado_apos limpar interacoes
       limite length app].
  rewrite bool_decide_eq_false_2 by lia. done.
Qed.

Lemma limpar_historico_depois_witness :
  ∃ resposta p2,
    processar_input strip_exemplo len_exemplo servico_exemplo
      (upstream_stub 200 corpo_cats) agora_exemplo "gatos" 0.9%float
      (limpar_historico
         {| contador := 7;
            proc_historico := {| interacoes := interacoes_exemplo 3; limite := 50 |} |}).2
      = Some (resposta, p2) ∧
    interacoes (proc_historico p2) =
      [MkInteracao 8 "gatos" "Cats rule." agora_exemplo "piada"].
Proof.
  destruct (limpar_historico_depois strip_exemplo len_exemplo servico_exemplo
              (upstream_stub 200 corpo_cats) agora_exemplo "gatos" 0.9%float
              {| contador := 7;
                 proc_historico :=
                   {| interacoes := interacoes_exemplo 3; limite := 50 |} |}
              "Cats rule.") as (_ & _ & _ & _ & _ & H).
  apply H.
  - intros [H0|H0]; [discriminate H0|]. vm_compute in H0. discriminate H0.
  - reflexivity.
  - cbn. lia.
Defined.

(** ** The application at work *)

Lemma invariante_inicial : invariante_aplicacao processo_inicial.
Proof.
  unfold invariante_aplicacao. cbn.
  split; [done|]. split; [done|]. split; [lia|]. split; constructor.
Qed.

Lemma adicionar_invariante (p : Processo) (x : Interacao) :
  invariante_aplicacao p →
  categoria x = "piada" → id x = contador p + 1 →
  invariante_aplicacao
    {| contador := contador p + 1;
       proc_historico := estado_apos (adicionar x) (proc_historico p) |}.
Proof.
  intros (Hc & Hlim & Hlen & Hall & Hsort) Hcat Hid.
  unfold invariante_aplicacao. cbn [contador proc_historico].
  rewrite adicionar_limite, adicionar_interacoes.
  assert (Forall (λ y, categoria y = "piada" ∧ 0 < id y ≤ contador p + 1)
            (interacoes (proc_historico p) ++ [x])) as Hall'.
  { apply Forall_app. split.
    - eapply Forall_impl; [exact Hall|]. cbn. intros y [? ?]. split; [done|lia].
    - constructor; [|constructor]. split; [done|lia]. }
  assert (StronglySorted (λ x y, id x < id y)
            (interacoes (proc_historico p) ++ [x])) as Hsort'.
  { apply StronglySorted_app_2; [|done|repeat constructor].
    intros x1 x2 H1 ->%list_elem_of_singleton.
    rewrite Forall_forall in Hall. destruct (Hall x1 H1). lia. }
  split; [lia|]. split; [done|]. case_bool_decide as Hgt.
  - split; [rewrite length_drop, length_app; cbn [length]; lia|].
    split; [by apply Forall_drop|].
    destruct (interacoes (proc_historico p) ++ [x]) as [|y l]; [constructor|].
    cbn. rewrite drop_0. by apply StronglySorted_cons in Hsort' as [_ ?].
  - split; [rewrite length_app; cbn [length]; lia|]. done.
Qed.

Lemma atender_invariante
    (py_strip : string → string) (py_len : string → Z) (servico : GeminiService)
    (p p' : Processo) (pedido : Pedido) (resposta : RespostaHTTP) :
  invariante_aplicacao p →
  atender py_strip py_len servico p pedido = Some (resposta, p') →
  invariante_aplicacao p' ∧ contador p ≤ contador p' ≤ contador p + 1.
Proof.
  intros Hinv. destruct pedido as [|post agora user_input temperatura| | |]; cbn.
  - intros [= _ <-]. split; [done|lia].
  - unfold processar_input. destruct (_ || _).
    { intros [= _ <-]. split; [done|lia]. }
    destruct (gerar_conteudo _ _ _ _ _) as [[| | | |resposta_ia| |]|e]; try done.
    + cbv beta iota zeta delta [Interacao_init]. intros [= _ <-]. split.
      * by apply adicionar_invariante.
      * cbn. lia.
    + intros [= _ <-]. split; [done|lia].
  - intros [= _ <-]. split; [exact Hinv|cbn; lia].
  - intros [= _ <-]. destruct Hinv as (Hc & Hlim & Hlen & Hall & Hsort).
    split; [|cbn; lia].
    unfold invariante_aplicacao. cbn.
    split; [done|]. split; [done|]. split; [lia|]. split; constructor.
  - intros [= _ <-]. split; [exact Hinv|cbn; lia].
Qed.

Lemma atender_todos_invariante
    (py_strip : string → string) (py_len : string → Z) (servico : GeminiService)
    (pedidos : list Pedido) (p p' : Processo) (respostas : list RespostaHTTP) :
  invariante_aplicacao p →
  atender_todos py_strip py_len servico pedidos p = Some (respostas, p') →
  invariante_aplicacao p' ∧ length respostas = length pedidos ∧
  contador p ≤ contador p' ≤ contador p + Z.of_nat (length pedidos).
Proof.
  revert p respostas. induction pedidos as [|pedido pedidos IH];
    intros p respostas Hinv.
  { cbn. intros [= <- <-]. split; [done|]. split; [done|lia]. }
  cbn [atender_todos].
  destruct (atender _ _ _ p pedido) as [[resposta p1]|] eqn:Ha; [|done].
  destruct (atender_todos _ _ _ pedidos p1) as [[respostas' p2]|] eqn:Hb; [|done].
  intros [= <- <-].
  destruct (atender_invariante _ _ _ _ _ _ _ Hinv Ha) as [Hinv1 Hc1].
  destruct (IH _ _ Hinv1 Hb) as (Hinv2 & Hlen & Hc2).
  split; [done|]. split; [cbn; by rewrite Hlen|]. cbn [length]. lia.
Qed.



(** X21. In the running application every stored interaction is a joke with
    a positive id that the counter has already passed, and the history is
    in strictly increasing order of id: so no two stored interactions share
    an id, and asking the history for the category [piada] gives all of
    it. *)
Theorem aplicacao_historico_piadas
    (py_strip : string → string) (py_len : string → Z) (servico : GeminiService)
    (pedidos : list Pedido) (p : Processo) (respostas : list RespostaHTTP) :
  atender_todos py_strip py_len servico pedidos processo_inicial
    = Some (respostas, p) →
  let h := proc_historico p in
  Forall (λ x, categoria x = "piada" ∧ 0 < id x ≤ contador p) (interacoes h) ∧
  StronglySorted (λ x y, id x < id y) (interacoes h) ∧
  NoDup (id <$> interacoes h) ∧
  valor_de (obter_por_categoria "piada") h = valor_de obter_todas h.
Proof.
  intros H h. subst h.
  destruct (atender_todos_invariante _ _ _ _ _ _ _ invariante_inicial H)
    as ((Hc & Hlim & Hlen & Hall & Hsort) & _ & _).
  split; [done|]. split; [done|]. split.
  - clear -Hsort. induction Hsort as [|x l Hs IH Hx]; [constructor|].
    cbn. constructor; [|done].
    intros (y & Hy & Hin)%list_elem_of_fmap.
    rewrite Forall_forall in Hx. specialize (Hx y Hin). lia.
  - unfold valor_de, obter_por_categoria, obter_todas. cbn [fst].
    rewrite compreensao_categoria_filter. f_equal.
    clear -Hall. induction Hall as [|x l [Hx _] Hl IH]; [done|].
    rewrite filter_cons, decide_True by done. by rewrite IH.
Qed.

Lemma aplicacao_historico_piadas_witness :
  ∃ respostas p,
    atender_todos strip_exemplo len_exemplo servico_exemplo
      [PostProcessar (upstream_stub 200 corpo_cats) agora_exemplo "gatos" 0.9%float;
       GetHistorico;
       PostProcessar (upstream_stub 200 corpo_cats) agora_exemplo "cachorros" 0.9%float]
      processo_inicial = Some (respostas, p) ∧
    NoDup (id <$> interacoes (proc_historico p)).
Proof.
  eexists _, _. split; [reflexivity|].
  eapply (aplicacao_historico_piadas strip_exemplo len_exemplo servico_exemplo
            [PostProcessar (upstream_stub 200 corpo_cats) agora_exemplo "gatos"
               0.9%float;
             GetHistorico;
             PostProcessar (upstream_stub 200 corpo_cats) agora_exemplo "cachorros"
               0.9%float]).
  reflexivity.
Defined.
